(** * NeoDNS: the query-resolution engine and its resolution cache

    A shallow embedding of [sqlite_database.py] and [dns_server.py].

    - Python [str] is [string]; a value that may be [None] is an [option].
    - Exceptions are explicit: a computation yields [Ok v] or [Raise e].
    - The SQLite database is threaded through as state.  A table is a
      list of rows, so that what the primary key does and does not enforce
      is visible (SQLite treats NULLs as distinct in a key).  [create_db]
      runs on the file on disk, which may be missing.
    - A query carries the labels of the name asked for; the text the
      handler matches is what dnspython prints for them.
    - The clock is a parameter: [now] is what [int(time.time())] reads
      while one query is handled.
    - The collaborators outside the repository (the C library's address
      parser, dnspython's resolver and UDP query, the avahi command) are
      fields of a record the engine is parameterised by. *)

From Stdlib Require Import ZArith Lia Ascii String.
From stdpp Require Import base decidable option list gmap strings.

Local Open Scope string_scope.
Local Open Scope Z_scope.
Local Open Scope list_scope.

(** * Part I: the program *)

(** ** Python string operations *)

Module PyStr.

(** [s.split(sep)] for a one-character separator. *)
Fixpoint split (sep : ascii) (s : string) : list string :=
  match s with
  | EmptyString => [EmptyString]
  | String c rest =>
      if Ascii.eqb c sep then EmptyString :: split sep rest
      else match split sep rest with
           | p :: ps => String c p :: ps
           | [] => [String c EmptyString]
           end
  end.

(** [sep.join(parts)]. *)
Fixpoint join (sep : string) (parts : list string) : string :=
  match parts with
  | [] => EmptyString
  | [p] => p
  | p :: ps => (p ++ sep ++ join sep ps)%string
  end.

(** [s.endswith(suffix)]. *)
Definition endswith (s suffix : string) : bool :=
  let n := String.length s in
  let k := String.length suffix in
  (k <=? n)%nat && String.eqb (substring (n - k) k s) suffix.

(** [s[:n]]. *)
Definition slice_to (n : nat) (s : string) : string := substring 0 n s.

Fixpoint lstrip (drop : ascii -> bool) (s : string) : string :=
  match s with
  | EmptyString => EmptyString
  | String c rest => if drop c then lstrip drop rest else s
  end.

Fixpoint rstrip (drop : ascii -> bool) (s : string) : string :=
  match s with
  | EmptyString => EmptyString
  | String c rest =>
      match rstrip drop rest with
      | EmptyString => if drop c then EmptyString else String c EmptyString
      | kept => String c kept
      end
  end.

(** [s.strip(chars)]: [drop] tells which characters go. *)
Definition strip (drop : ascii -> bool) (s : string) : string :=
  rstrip drop (lstrip drop s).

(** What [str.isspace] accepts among the ASCII characters. *)
Definition isspace (c : ascii) : bool :=
  let n := nat_of_ascii c in
  ((9 <=? n) && (n <=? 13) || (28 <=? n) && (n <=? 32))%nat.

Definition is_dot (c : ascii) : bool := Ascii.eqb c ".".

(** [c in s] for a character. *)
Fixpoint contains (c : ascii) (s : string) : bool :=
  match s with
  | EmptyString => false
  | String c' rest => Ascii.eqb c' c || contains c rest
  end.

(** [parts[:-2]] and [parts[-2:]]. *)
Definition all_but_last_two {A} (parts : list A) : list A :=
  take (length parts - 2) parts.

Definition last_two {A} (parts : list A) : list A :=
  drop (length parts - 2) parts.

End PyStr.

(** ** Exceptions and results *)

(** The classes dnspython's resolver raises; all derive from
    [dns.exception.DNSException]. *)
Inductive dns_failure :=
| NXDOMAIN
| NoAnswer
| NoNameservers
| LifetimeTimeout
| OtherDNSFailure.

Inductive exn :=
| ValueError (msg : string)
| AttributeError
| IndexError
| TypeError
| ProgrammingError        (* sqlite3: wrong number of bindings *)
| OperationalError        (* sqlite3: no such table *)
| OSError
| DNSException (f : dns_failure).

Inductive result (A : Type) :=
| Ok (a : A)
| Raise (e : exn).
Arguments Ok {A} a.
Arguments Raise {A} e.

(** ** The cache database ([sqlite_database.py]) *)

Record row := Row {
  domain : string;
  subdomain : option string;     (* NULL is [None] *)
  ip : string;
  timestamp : Z
}.

Definition table := list row.

(** What a connection to [dns_resolutions.db] sees: [None] while the
    database holds no [domain_resolutions] table. *)
Definition database := option table.

(** [DB_NAME] on disk: no file, or an SQLite database file, which holds
    the table or not. *)
Inductive db_file :=
| NoFile
| DbFile (content : database).

(** A computation over the database that may raise.  A raised exception
    keeps the state reached so far: what was committed stays committed. *)
Definition M (A : Type) := database -> result A * database.

Definition ret {A} (a : A) : M A := fun db => (Ok a, db).

Definition raise {A} (e : exn) : M A := fun db => (Raise e, db).

Definition bind {A B} (m : M A) (k : A -> M B) : M B :=
  fun db => match m db with
            | (Ok a, db') => k a db'
            | (Raise e, db') => (Raise e, db')
            end.

(** [try: body except Exception as e: handler]. *)
Definition try_except {A} (body : M A) (handler : exn -> M A) : M A :=
  fun db => match body db with
            | (Ok a, db') => (Ok a, db')
            | (Raise e, db') => handler e db'
            end.

(** A computation that does not touch the database. *)
Definition lift {A} (r : result A) : M A := fun db => (r, db).

Notation "'let!' x ':=' m 'in' k" := (bind m (fun x => k))
  (at level 10, x name, m at level 100, k at level 200).
Notation "'do!' m 'in' k" := (bind m (fun _ => k))
  (at level 10, m at level 100, k at level 200).

Module Sql.

(** [WHERE domain = ? AND subdomain = ?] with both parameters bound. *)
Definition where_eq (d s : string) (r : row) : Prop :=
  domain r = d ∧ subdomain r = Some s.

(** [WHERE domain = ? AND subdomain IS NULL]. *)
Definition where_null (d : string) (r : row) : Prop :=
  domain r = d ∧ subdomain r = None.

#[global] Instance where_eq_dec d s r : Decision (where_eq d s r).
Proof. unfold where_eq. apply _. Defined.

#[global] Instance where_null_dec d r : Decision (where_null d r).
Proof. unfold where_null. apply _. Defined.

Definition select (w : row -> Prop) `{!∀ r, Decision (w r)} (t : table)
  : list row := filter w t.

Definition delete (w : row -> Prop) `{!∀ r, Decision (w r)} (t : table)
  : table := filter (λ r, ¬ w r) t.

(** [cursor.fetchone()]. *)
Definition fetchone (rows : list row) : option row := head rows.

(** [PRIMARY KEY (domain, subdomain)]: two rows collide when both columns
    are equal and the subdomain is not NULL. *)
Definition collides (new old : row) : Prop :=
  domain old = domain new ∧ subdomain old = subdomain new
  ∧ subdomain new ≠ None.

#[global] Instance collides_dec new old : Decision (collides new old).
Proof. unfold collides. apply _. Defined.

(** [INSERT OR REPLACE]: rows colliding with the new one are dropped. *)
Definition insert_or_replace (new : row) (t : table) : table :=
  filter (λ old, ¬ collides new old) t ++ [new].

(** [CREATE TABLE IF NOT EXISTS]: a table that exists stays as it is,
    rows included. *)
Definition create_table_if_not_exists (db : database) : database :=
  match db with
  | None => Some []
  | Some t => Some t
  end.

(** Run statements on the table; without the table every statement fails
    with "no such table". *)
Definition on_table {A} (f : table -> result A * table) : M A :=
  fun db => match db with
            | None => (Raise OperationalError, None)
            | Some t => let '(r, t') := f t in (r, Some t')
            end.

End Sql.

(** Python's [if subdomain:] on an optional string: [Some s] in the true
    branch (with [s] the string), [None] in the false branch, which both
    [None] and the empty string take. *)
Definition truthy (subdomain : option string) : option string :=
  match subdomain with
  | Some s => if decide (s = "") then None else Some s
  | None => None
  end.

Definition os_path_exists (f : db_file) : bool :=
  match f with
  | NoFile => false
  | DbFile _ => true
  end.

(** [os.remove]: [FileNotFoundError] without the file. *)
Definition os_remove (f : db_file) : result unit * db_file :=
  match f with
  | NoFile => (Raise OSError, NoFile)
  | DbFile _ => (Ok tt, NoFile)
  end.

(** [sqlite3.connect]: the database of the file; without the file, a new
    database with no table. *)
Definition sqlite3_connect (f : db_file) : database :=
  match f with
  | NoFile => None
  | DbFile content => content
  end.

(** [create_db], statement by statement: the removal of the file when it
    exists, then the connection, the [CREATE TABLE IF NOT EXISTS] and the
    commit. *)
Definition create_db (f : db_file) : result unit * db_file :=
  let '(removed, f) :=
    if os_path_exists f then os_remove f else (Ok tt, f) in
  match removed with
  | Raise e => (Raise e, f)
  | Ok _ =>
      let conn := sqlite3_connect f in
      (Ok tt, DbFile (Sql.create_table_if_not_exists conn))
  end.

Definition get_ip_from_db (domain : string) (subdomain : option string)
  : M (option string) :=
  Sql.on_table (fun t =>
    let result :=
      Sql.fetchone
        match truthy subdomain with
        | Some s => Sql.select (Sql.where_eq domain s) t
        | None => Sql.select (Sql.where_null domain) t
        end in
    match result with
    | Some r => (Ok (Some (ip r)), t)
    | None => (Ok None, t)
    end).

Definition store_ip_in_db (now : Z) (domain : string)
    (subdomain : option string) (ip : string) : M unit :=
  Sql.on_table (fun t =>
    let t1 :=
      match truthy subdomain with
      | Some s => Sql.delete (Sql.where_eq domain s) t
      | None => Sql.delete (Sql.where_null domain) t
      end in
    let t2 :=
      match truthy subdomain with
      | Some s => Sql.insert_or_replace (Row domain (Some s) ip now) t1
      | None => Sql.insert_or_replace (Row domain None ip now) t1
      end in
    (Ok tt, t2)).

Definition five_minutes : Z := 5 * 60.

Definition check_if_resolution_valid (now : Z) (domain : string)
    (subdomain : option string) : M bool :=
  Sql.on_table (fun t =>
    let result :=
      Sql.fetchone
        match truthy subdomain with
        | Some s => Sql.select (Sql.where_eq domain s) t
        | None => Sql.select (Sql.where_null domain) t
        end in
    match result with
    | Some r =>
        if now - timestamp r >? five_minutes then
          (* DELETE ... WHERE domain = ? AND subdomain = ? is run with the
             tuple [(domain, subdomain) if subdomain else (domain,)]: two
             placeholders, one value in the false branch *)
          match truthy subdomain with
          | Some s => (Ok false, Sql.delete (Sql.where_eq domain s) t)
          | None => (Raise ProgrammingError, t)
          end
        else (Ok true, t)
    | None => (Ok false, t)
    end).

(** ** The DNS server ([dns_server.py]) *)

Inductive address_family := AF_INET | AF_INET6.
Inductive ip_type := IPv4 | IPv6.
Inductive rdatatype := RR_A | RR_AAAA.
Inductive rcode := NOERROR | SERVFAIL.

(** An answer record set holding one address. *)
Record rrset := RRset {
  rr_name : string;
  rr_type : rdatatype;
  rr_ttl : Z;
  rr_address : string
}.

(** A name off the wire is a sequence of labels, each a byte string, the
    last one empty; [dns.name.Name.to_text] prints it. *)
Module DnsName.

(** The characters printed with a backslash in front: the double quote,
    the parentheses, the dot, the semicolon, the backslash, the at sign
    and the dollar sign. *)
Definition escaped (c : ascii) : bool :=
  existsb (Ascii.eqb c) ["034"; "("; ")"; "."; ";"; "\"; "@"; "$"]%char.

Definition digit (d : nat) : ascii := ascii_of_nat (48 + d).

(** One byte of a label: as it is when printable, else as a backslash and
    three decimal digits. *)
Definition escapify_char (c : ascii) : string :=
  let n := nat_of_ascii c in
  if escaped c then String "\" (String c EmptyString)
  else if ((32 <? n) && (n <? 127))%nat then String c EmptyString
  else String "\"
         (String (digit (n / 100))
            (String (digit (n / 10 mod 10))
               (String (digit (n mod 10)) EmptyString))).

Fixpoint escapify (label : string) : string :=
  match label with
  | EmptyString => EmptyString
  | String c rest => (escapify_char c ++ escapify rest)%string
  end.

(** [name.to_text()]. *)
Definition to_text (labels : list string) : string :=
  match labels with
  | [] => "@"
  | [EmptyString] => "."
  | _ => PyStr.join "." (map escapify labels)
  end.

End DnsName.

(** A parsed query: a datagram that [dns.message.from_wire] accepted, with
    the QR flag clear (a query, not a response, so that [make_response]
    accepts it) and a first question.  Its transaction id and the labels
    of the name of that question. *)
Record query := Query {
  query_id : Z;
  question_labels : list string
}.

(** [query.question[0].name.to_text()]. *)
Definition question_name (q : query) : string :=
  DnsName.to_text (question_labels q).

(** A response message.  The wire codec is dnspython's, so the datagram
    [response.to_wire()] is identified with the message it encodes. *)
Record message := Message {
  in_reply_to : query;
  msg_rcode : rcode;
  msg_answer : list rrset
}.

(** What the engine calls outside the repository. *)
Record collaborators := {
  (** The C library's [inet_pton] on a C string: whether it parses. *)
  inet_pton : address_family -> string -> bool;
  (** [dns.resolver.resolve(name, 'A')[0].to_text()], or the exception. *)
  dns_resolver_resolve : string -> dns_failure + string;
  (** [subprocess.run(['avahi-resolve', '--name', host], ...)]: the return
      code and the captured standard output, or the exception. *)
  avahi_resolve : string -> result (Z * string);
  (** [dns.query.udp(query, DNS_RESOLVER)] when the call returns: the
      response, or the exception.  The call is made without a timeout; one
      that waits forever has no outcome here. *)
  dns_query_udp : query -> result message
}.

Record config_data := ConfigData {
  cfg_ip : string;                       (* config_data["ip"] *)
  cfg_subdomains : gmap string string    (* config_data['subdomains'] *)
}.

(** [config['special_domains']]: a dict, iterated in insertion order. *)
Record config := Config {
  special_domains : list (string * config_data)
}.

(** [dns.message.make_response(query)]. *)
Definition make_response (q : query) : message := Message q NOERROR [].

(** [Message.set_rcode] updates the receiver in place and returns [None]:
    the pair is the receiver afterwards and the value of the call. *)
Definition set_rcode (rc : rcode) (m : message) : message * option message :=
  (Message (in_reply_to m) rc (msg_answer m), None).

(** [response.to_wire()] on a value that may be [None]. *)
Definition to_wire (response : option message) : M message :=
  match response with
  | Some m => ret m
  | None => raise AttributeError
  end.

(** [parts[1]]. *)
Definition index1 (parts : list string) : result string :=
  match parts !! 1%nat with
  | Some p => Ok p
  | None => Raise IndexError
  end.

Definition separate_domain_and_subdomain (qname : string)
  : option string * string :=
  let parts := PyStr.split "." qname in
  if (2 <? length parts)%nat then
    (Some (PyStr.join "." (PyStr.all_but_last_two parts)),
     PyStr.join "." (PyStr.last_two parts))
  else (None, qname).

(** The branch of the [for] loop of [handle_dns_query] that returns. *)
Inductive hit :=
| ExactDomain (domain : string) (target : string)
| Subdomain (domain subdomain : string) (target : string).

(** One iteration of the [for domain, config_data in
    config['special_domains'].items()] loop of [handle_dns_query]: the
    branch it returns from, or [None] when it falls through to the next. *)
Definition iteration (qname : string) (item : string * config_data)
  : option hit :=
  let '(domain, config_data) := item in
  if decide (qname = domain) then
    Some (ExactDomain domain (cfg_ip config_data))
  else if PyStr.endswith qname ("." ++ domain)%string then
    let subdomain :=
      PyStr.slice_to
        (String.length qname - String.length domain - 1) qname in
    match cfg_subdomains config_data !! subdomain with
    | Some target => Some (Subdomain domain subdomain target)
    | None => None
    end
  else None.

(** The loop: the first iteration that returns, if any. *)
Fixpoint special_domains_loop (qname : string)
    (items : list (string * config_data)) : option hit :=
  match items with
  | [] => None
  | item :: rest =>
      match iteration qname item with
      | Some h => Some h
      | None => special_domains_loop qname rest
      end
  end.

Section Engine.

Context (E : collaborators).

(** [socket.inet_pton(af, ip)].  Python first turns the string into a C
    string, and raises [ValueError] when it holds a NUL character; only then
    does the C library's parser see it.  [Ok false] stands for
    [socket.error]. *)
Definition socket_inet_pton (af : address_family) (ip : string)
  : result bool :=
  if PyStr.contains "000" ip then Raise (ValueError "embedded null character")
  else Ok (inet_pton E af ip).

(** The two [except socket.error] clauses catch nothing else. *)
Definition is_valid_ip (ip : string) : result (option ip_type) :=
  match socket_inet_pton AF_INET ip with
  | Ok true => Ok (Some IPv4)
  | Ok false =>
      match socket_inet_pton AF_INET6 ip with
      | Ok true => Ok (Some IPv6)
      | Ok false => Ok None
      | Raise e => Raise e
      end
  | Raise e => Raise e
  end.

Definition get_ip_or_domain (input_str : string) : result string :=
  match is_valid_ip input_str with
  | Raise e => Raise e
  | Ok (Some _) => Ok input_str
  | Ok None =>
      match
        (match dns_resolver_resolve E input_str with
         | inr first => Ok first
         | inl f => Raise (DNSException f)
         end)
      with
      | Ok a => Ok a
      | Raise (DNSException _) => Ok input_str
      | Raise e => Raise e
      end
  end.

Definition create_dns_record (domain : string) (ttl : Z) (ip : string)
  : result rrset :=
  match is_valid_ip ip with
  | Raise e => Raise e
  | Ok (Some IPv4) => Ok (RRset domain RR_A ttl ip)
  | Ok (Some IPv6) => Ok (RRset domain RR_AAAA ttl ip)
  | Ok None => Raise (ValueError "Invalid IP address format")
  end.

(** [threading.Thread(target=store_ip_in_db, args=...).start()].  The write
    runs in its own SQLite transaction, which is taken to complete before
    the caller's next statement (no caller reads the database after it); an
    exception in it ends the thread, not the caller. *)
Definition start_store_thread (now : Z) (domain : string)
    (subdomain : option string) (ip : string) : M unit :=
  try_except (store_ip_in_db now domain subdomain ip) (fun _ => ret tt).

(** Lines 186-195 of [create_dns_entry], once [ip] is decided. *)
Definition respond_with (now : Z) (ip : string) (query : query)
    (domain : string) (subdomain : option string) : M message :=
  let full_domain :=
    match truthy subdomain with
    | Some s => (s ++ "." ++ domain)%string
    | None => domain
    end in
  let response := make_response query in
  let! answer := lift (create_dns_record full_domain 3600 ip) in
  let response :=
    Message (in_reply_to response) (msg_rcode response)
            (msg_answer response ++ [answer]) in
  do! start_store_thread now domain subdomain ip in
  ret response.

(** [str(x)] for a string or [None]. *)
Definition str (x : option string) : string :=
  match x with
  | Some s => s
  | None => "None"
  end.

(** Were [old_ip] to be [None] and reused, it would reach
    [socket.inet_pton], which raises [TypeError] on it. *)
Definition create_dns_entry (now : Z) (ip : string) (query : query)
    (domain : string) (subdomain : option string) : M message :=
  let! valid := check_if_resolution_valid now domain subdomain in
  let! ip :=
    (if valid : bool then
       let! old_ip := get_ip_from_db domain subdomain in
       if decide (str old_ip ≠ ip) then lift (get_ip_or_domain ip)
       else match old_ip with
            | Some old_ip => ret old_ip
            | None => raise TypeError
            end
     else lift (get_ip_or_domain ip)) in
  respond_with now ip query domain subdomain.

Definition resolve_mdns (now : Z) (ip_host : string) (query : query)
    (domain : string) (subdomain : option string) : M (option message) :=
  try_except
    (let! result := lift (avahi_resolve E ip_host) in
     let '(returncode, stdout) := result in
     if returncode =? 0 then
       let! ip :=
         lift (index1 (PyStr.split "009" (PyStr.strip PyStr.isspace stdout))) in
       let! ip_type := lift (is_valid_ip ip) in
       match ip_type with
       | Some _ =>
           let! response := create_dns_entry now ip query domain subdomain in
           ret (Some response)
       | None => ret (snd (set_rcode SERVFAIL (make_response query)))
       end
     else ret (snd (set_rcode SERVFAIL (make_response query))))
    (fun e => ret (snd (set_rcode SERVFAIL (make_response query)))).

(** After a validity check that returned [True], [get_ip_from_db] finds
    the row (lemma [valid_then_cached]); a [None] passed on would end in
    [TypeError]. *)
Definition resolve_dns_entry (now : Z) (qname : string) (query : query)
  : M message :=
  let '(subdomain, domain) := separate_domain_and_subdomain qname in
  let! valid := check_if_resolution_valid now domain subdomain in
  if valid : bool then
    let! ip := get_ip_from_db domain subdomain in
    match ip with
    | Some ip =>
        let! response := create_dns_entry now ip query domain subdomain in
        do! start_store_thread now domain subdomain ip in
        ret response
    | None => raise TypeError
    end
  else
    let! ip := lift (get_ip_or_domain qname) in
    let! response := lift (dns_query_udp E query) in
    do! start_store_thread now domain subdomain ip in
    ret response.

(** [data] is taken already parsed ([dns.message.from_wire]); the value
    returned is the datagram of the response. *)
Definition handle_dns_query (now : Z) (query : query) (config : config)
  : M message :=
  let qname := PyStr.strip PyStr.is_dot (question_name query) in
  match special_domains_loop qname (special_domains config) with
  | Some (ExactDomain domain target) =>
      if PyStr.endswith target ".local" then
        let! response := resolve_mdns now target query domain None in
        to_wire response
      else
        let! response := create_dns_entry now target query domain None in
        to_wire (Some response)
  | Some (Subdomain domain subdomain target) =>
      if PyStr.endswith target ".local" then
        let! response :=
          resolve_mdns now target query domain (Some subdomain) in
        to_wire response
      else
        let! response :=
          create_dns_entry now target query domain (Some subdomain) in
        to_wire (Some response)
  | None =>
      let! response :=
        try_except (resolve_dns_entry now qname query)
          (fun e => ret (fst (set_rcode SERVFAIL (make_response query)))) in
      to_wire (Some response)
  end.

(** The receive loop of [start_dns_server] over the datagrams that arrive,
    each with the clock reading at its arrival: the responses sent, or the
    exception that ends the loop. *)
Fixpoint serve (config : config) (arrivals : list (Z * query))
  : M (list message) :=
  match arrivals with
  | [] => ret []
  | (now, query) :: rest =>
      let! response := handle_dns_query now query config in
      let! sent := serve config rest in
      ret (response :: sent)
  end.

(** [start_dns_server] on the file found at startup, from [create_db] to
    the end of the loop, with the configuration loaded, the socket bound
    and every datagram parsed: what [load_config], the socket calls and
    [from_wire] raise is not part of it.  The functions of
    [sqlite_database.py] connect to the file [create_db] leaves. *)
Definition start_dns_server (config : config) (arrivals : list (Z * query))
    (f : db_file) : result (list message) * database :=
  match create_db f with
  | (Ok _, f) => serve config arrivals (sqlite3_connect f)
  | (Raise e, f) => (Raise e, sqlite3_connect f)
  end.

End Engine.

(** ** Concrete collaborators

    Reference models of the C library's address parsers, and worlds built
    from finite tables, to run the engine on concrete inputs. *)

Module Libc.

Local Open Scope nat_scope.

Definition digit_value (ch : ascii) : option nat :=
  let n := nat_of_ascii ch in
  if ((48 <=? n) && (n <=? 57))%nat then Some (n - 48)%nat else None.

Definition is_xdigit (ch : ascii) : bool :=
  let n := nat_of_ascii ch in
  ((48 <=? n) && (n <=? 57) || (65 <=? n) && (n <=? 70)
   || (97 <=? n) && (n <=? 102))%nat.

(** Dotted quad: four decimal fields of value at most 255, no leading
    zero, nothing else. *)
Fixpoint inet_pton4_loop (src : string) (saw_digit : bool)
    (octets cur : nat) : bool :=
  match src with
  | EmptyString => (4 <=? octets)%nat
  | String ch rest =>
      match digit_value ch with
      | Some d =>
          let new := (cur * 10 + d)%nat in
          if saw_digit && (cur =? 0)%nat then false
          else if (255 <? new)%nat then false
          else if saw_digit then inet_pton4_loop rest true octets new
          else if (4 <? octets + 1)%nat then false
          else inet_pton4_loop rest true (octets + 1) new
      | None =>
          if Ascii.eqb ch "." && saw_digit then
            if (octets =? 4)%nat then false
            else inet_pton4_loop rest false octets 0
          else false
      end
  end.

Definition inet_pton4 (src : string) : bool := inet_pton4_loop src false 0 0.

(** Colon-separated groups of one to four hexadecimal digits, one optional
    [::], an optional dotted quad at the end; [tp] counts the bytes
    produced so far out of sixteen. *)
Fixpoint inet_pton6_loop (src curtok : string) (tp : nat) (colonp : bool)
    (xdigits_seen : nat) : bool :=
  let finish (tp : nat) (xdigits_seen : nat) :=
    let tp := if (0 <? xdigits_seen)%nat then (tp + 2)%nat else tp in
    if (16 <? tp)%nat then false
    else if colonp then negb (tp =? 16)%nat
    else (tp =? 16)%nat in
  match src with
  | EmptyString => finish tp xdigits_seen
  | String ch rest =>
      if is_xdigit ch then
        if (xdigits_seen =? 4)%nat then false
        else inet_pton6_loop rest curtok tp colonp (xdigits_seen + 1)
      else if Ascii.eqb ch ":" then
        if (xdigits_seen =? 0)%nat then
          if colonp then false
          else inet_pton6_loop rest rest tp true 0
        else if bool_decide (rest = EmptyString) then false
        else if (16 <? tp + 2)%nat then false
        else inet_pton6_loop rest rest (tp + 2) colonp 0
      else if Ascii.eqb ch "." && (tp + 4 <=? 16)%nat && inet_pton4 curtok
      then finish (tp + 4) 0
      else false
  end.

Definition inet_pton6 (src : string) : bool :=
  match src with
  | EmptyString => false
  | String ":" (String ":" _ as rest) => inet_pton6_loop rest rest 0 false 0
  | String ":" _ => false
  | _ => inet_pton6_loop src src 0 false 0
  end.

Definition inet_pton (af : address_family) (ip : string) : bool :=
  match af with
  | AF_INET => inet_pton4 ip
  | AF_INET6 => inet_pton6 ip
  end.

End Libc.

Module World.

Fixpoint assoc (key : string) (entries : list (string * string))
  : option string :=
  match entries with
  | [] => None
  | (k, v) :: rest => if String.eqb k key then Some v else assoc key rest
  end.

(** A world where public DNS knows exactly [names], mDNS knows exactly
    [hosts] (anything else makes [avahi-resolve] exit with status 1), and
    the upstream resolver answers every forwarded query with an empty
    success response when [upstream_up], and times out otherwise. *)
Definition make (names hosts : list (string * string)) (upstream_up : bool)
  : collaborators :=
  {| inet_pton := Libc.inet_pton;
     dns_resolver_resolve name :=
       match assoc name names with
       | Some a => inr a
       | None => inl NXDOMAIN
       end;
     avahi_resolve host :=
       match assoc host hosts with
       | Some a => Ok (0, (host ++ String "009" a ++ String "010" "")%string)
       | None => Ok (1, "")
       end;
     dns_query_udp q :=
       if upstream_up then Ok (make_response q)
       else Raise (DNSException LifetimeTimeout) |}.

(** No name resolves anywhere. *)
Definition offline : collaborators := make [] [] false.

End World.

(** * Part II: vocabulary of the properties *)

(** ** Cache keys and the uniqueness invariant *)

Definition cache_key : Type := string * option string.

Definition row_key (r : row) : cache_key := (domain r, subdomain r).

(** The key a call with arguments [(domain, subdomain)] addresses: a
    subdomain that Python takes as false selects the NULL rows. *)
Definition key_of (domain : string) (subdomain : option string) : cache_key :=
  (domain, truthy subdomain).

Definition entries (k : cache_key) (t : table) : list row :=
  filter (λ r, row_key r = k) t.

Definition others (k : cache_key) (t : table) : list row :=
  filter (λ r, row_key r ≠ k) t.

(** At most one row per key. *)
Definition unique_keys (t : table) : Prop :=
  ∀ k, (length (entries k t) ≤ 1)%nat.

Definition db_unique (db : database) : Prop :=
  match db with
  | Some t => unique_keys t
  | None => True
  end.

Definition expired (now : Z) (r : row) : bool :=
  now - timestamp r >? five_minutes.

Definition fresh_entry (now : Z) (k : cache_key) (t : table) : bool :=
  match head (entries k t) with
  | Some r => negb (expired now r)
  | None => false
  end.

(** ** Labels *)

Fixpoint has_char (c : ascii) (s : string) : bool :=
  match s with
  | EmptyString => false
  | String c' rest => Ascii.eqb c' c || has_char c rest
  end.

(** A label: a string without the separator. *)
Definition dot_free (label : string) : Prop := has_char "." label = false.

(** ** Matching *)

Definition item : Type := string * config_data.

(** The exact-domain branch and the subdomain branch of an iteration. *)
Definition exact_match (qname : string) (it : item) : option hit :=
  if decide (qname = it.1) then Some (ExactDomain it.1 (cfg_ip it.2))
  else None.

Definition subdomain_match (qname : string) (it : item) : option hit :=
  if PyStr.endswith qname ("." ++ it.1)%string then
    let subdomain :=
      PyStr.slice_to (String.length qname - String.length it.1 - 1) qname in
    match cfg_subdomains it.2 !! subdomain with
    | Some target => Some (Subdomain it.1 subdomain target)
    | None => None
    end
  else None.

Fixpoint first_hit (f : item → option hit) (items : list item) : option hit :=
  match items with
  | [] => None
  | it :: rest =>
      match f it with
      | Some h => Some h
      | None => first_hit f rest
      end
  end.

(** The matcher in the specification's words: the first configured domain
    equal to the query name; only when there is none, the first configured
    subdomain match. *)
Definition spec_match (qname : string) (items : list item) : option hit :=
  match first_hit (exact_match qname) items with
  | Some h => Some h
  | None => first_hit (subdomain_match qname) items
  end.

(** A subdomain match listed before the first domain equal to the name. *)
Definition shadowed (qname : string) (items : list item) : Prop :=
  ∃ pre it post,
    items = pre ++ it :: post
    ∧ (qname ∉ pre.*1)
    ∧ is_Some (subdomain_match qname it)
    ∧ qname ∈ post.*1.

(** The configuration of the example: a domain with a subdomain, listed
    before the subdomain's own entry. *)
Definition shadowing_config : list item :=
  [("example.com", ConfigData "10.0.0.1" {["www" := "10.0.0.2"]});
   ("www.example.com", ConfigData "10.0.0.3" ∅)].

(** ** Resolution *)


(** [get_ip_or_domain] followed by the construction of the response. *)
Definition resolve_and_respond (E : collaborators) (now : Z) (ip : string)
    (query : query) (domain : string) (subdomain : option string)
  : M message :=
  let! ip := lift (get_ip_or_domain E ip) in
  respond_with E now ip query domain subdomain.


(** ** Configurations of the scenarios *)

Definition home_test_config : config :=
  Config [("home.test", ConfigData "192.168.1.10" ∅)].

Definition unresolvable_config : config :=
  Config [("home.test", ConfigData "nas.invalid" ∅)].

Definition local_config : config :=
  Config [("printer.test", ConfigData "printer.local" ∅)].

(** ** Invariant preservation *)

(** A computation keeps the key-uniqueness invariant. *)
Definition keeps {A} (m : M A) : Prop :=
  ∀ db, db_unique db → db_unique (m db).2.

Create HintDb keeps.

(** ** Answers *)

(** The record type that goes with an address family. *)
Definition rdtype_of (ty : ip_type) : rdatatype :=
  match ty with
  | IPv4 => RR_A
  | IPv6 => RR_AAAA
  end.

(** The success response to [q] with one record: [name], TTL 3600, the
    address [a] of family [ty]. *)
Definition answer (q : query) (name : string) (ty : ip_type) (a : string)
  : message :=
  Message q NOERROR [RRset name (rdtype_of ty) 3600 a].

(** The server-failure response to [q], without records. *)
Definition servfail (q : query) : message := Message q SERVFAIL [].

(** [f"{subdomain}.{domain}" if subdomain else domain]. *)
Definition full_domain (d : string) (s : option string) : string :=
  match truthy s with
  | Some s' => (s' ++ "." ++ d)%string
  | None => d
  end.

Definition hit_domain (h : hit) : string :=
  match h with
  | ExactDomain d _ => d
  | Subdomain d _ _ => d
  end.

Definition hit_subdomain (h : hit) : option string :=
  match h with
  | ExactDomain _ _ => None
  | Subdomain _ sub _ => Some sub
  end.

Definition hit_target (h : hit) : string :=
  match h with
  | ExactDomain _ target => target
  | Subdomain _ _ target => target
  end.

(** The exceptions that leave [create_dns_entry]. *)
Definition invalid_address : exn := ValueError "Invalid IP address format".

(** The forwarding branch of [resolve_dns_entry], after the validity check
    left the table [t0]: the name is resolved for the cache, the query is
    sent upstream, and the write is started once the response is there. *)
Definition forwarded (E : collaborators) (now : Z) (qname : string)
    (q : query) (d : string) (sub : option string) (t0 : table)
  : result message * database :=
  match get_ip_or_domain E qname with
  | Ok a =>
      match dns_query_udp E q with
      | Ok m =>
          (Ok m,
           Some (others (key_of d sub) t0 ++ [Row d (truthy sub) a now]))
      | Raise e => (Raise e, Some t0)
      end
  | Raise e => (Raise e, Some t0)
  end.

(** ** Invariants of the database *)

(** A computation preserves a property of the database, whether it returns
    or raises. *)
Definition preserves (P : database → Prop) {A} (m : M A) : Prop :=
  ∀ db, P db → P (m db).2.

(** The table exists and has at most one row per key. *)
Definition sound_table (db : database) : Prop :=
  ∃ t, db = Some t ∧ unique_keys t.

(** * Part III: properties *)

(** ** The model on concrete inputs *)

Example split_three_labels : PyStr.split "." "a.b.c" = ["a"; "b"; "c"].
Proof. reflexivity. Qed.

Example split_empty_name : PyStr.split "." "" = [""].
Proof. reflexivity. Qed.

Example strip_trailing_dot :
  PyStr.strip PyStr.is_dot "home.test." = "home.test".
Proof. reflexivity. Qed.

Example separate_four_labels :
  separate_domain_and_subdomain "www.mail.example.com"
  = (Some "www.mail", "example.com").
Proof. reflexivity. Qed.

Example separate_two_labels :
  separate_domain_and_subdomain "example.com" = (None, "example.com").
Proof. reflexivity. Qed.

Example dotted_quad_accepted : Libc.inet_pton4 "192.168.1.10" = true.
Proof. reflexivity. Qed.

Example dotted_quad_out_of_range : Libc.inet_pton4 "192.168.1.256" = false.
Proof. reflexivity. Qed.

Example name_is_no_address :
  Libc.inet_pton4 "nas.invalid" = false ∧ Libc.inet_pton6 "nas.invalid" = false.
Proof. split; reflexivity. Qed.

Example loopback_v6_accepted : Libc.inet_pton6 "::1" = true.
Proof. reflexivity. Qed.

Example mapped_v4_accepted : Libc.inet_pton6 "::ffff:1.2.3.4" = true.
Proof. reflexivity. Qed.

Example two_gaps_rejected : Libc.inet_pton6 "1::2::3" = false.
Proof. reflexivity. Qed.

(** A successful local-network resolution is answered. *)
Example mdns_success :
  handle_dns_query (World.make [] [("printer.local", "10.0.0.9")] false) 100
    (Query 7 ["printer"; "test"; ""]) local_config (Some [])
  = (Ok (Message (Query 7 ["printer"; "test"; ""]) NOERROR
           [RRset "printer.test" RR_A 3600 "10.0.0.9"]),
     Some [Row "printer.test" None "10.0.0.9" 100]).
Proof. reflexivity. Qed.

(** An unmatched name with the upstream resolver out of reach is answered
    with a server failure. *)
Example no_match_upstream_down :
  handle_dns_query World.offline 100 (Query 7 ["example"; "org"; ""]) home_test_config
    (Some [])
  = (Ok (Message (Query 7 ["example"; "org"; ""]) SERVFAIL []), Some []).
Proof. reflexivity. Qed.

(** ** The resolution cache *)

Section CacheFacts.

Implicit Types (t : table) (k : cache_key) (r : row).

Lemma select_is_entries d s t :
  match truthy s with
  | Some s' => Sql.select (Sql.where_eq d s') t
  | None => Sql.select (Sql.where_null d) t
  end = entries (key_of d s) t.
Proof.
  unfold key_of, entries, Sql.select.
  destruct (truthy s) as [s'|]; apply list_filter_iff; intros [rd rs ra rt];
    unfold Sql.where_eq, Sql.where_null, row_key; simpl;
    (split; [intros [-> ->]; reflexivity | intros [= -> ->]; done]).
Qed.

Lemma delete_is_others d s t :
  match truthy s with
  | Some s' => Sql.delete (Sql.where_eq d s') t
  | None => Sql.delete (Sql.where_null d) t
  end = others (key_of d s) t.
Proof.
  unfold key_of, others, Sql.delete.
  destruct (truthy s) as [s'|]; apply list_filter_iff; intros [rd rs ra rt];
    unfold Sql.where_eq, Sql.where_null, row_key; simpl;
    (split; intros Hn; contradict Hn;
     [injection Hn as -> ->; done | destruct Hn as [-> ->]; reflexivity]).
Qed.

Lemma entries_others_same k t : entries k (others k t) = [].
Proof.
  unfold entries, others. induction t as [|r t IH]; [done|].
  destruct (decide (row_key r = k)) as [Heq|Hne].
  - rewrite (filter_cons_False (λ r, row_key r ≠ k)) by (intros H; by apply H).
    exact IH.
  - rewrite (filter_cons_True (λ r, row_key r ≠ k)) by done.
    rewrite (filter_cons_False (λ r, row_key r = k)) by done. exact IH.
Qed.

Lemma entries_others_ne k k' t :
  k' ≠ k → entries k' (others k t) = entries k' t.
Proof.
  intros Hne. unfold entries, others. induction t as [|r t IH]; [done|].
  destruct (decide (row_key r = k)) as [Heq|Hne'].
  - rewrite (filter_cons_False (λ r, row_key r ≠ k)) by (intros H; by apply H).
    rewrite (filter_cons_False (λ r, row_key r = k')) by congruence.
    exact IH.
  - rewrite (filter_cons_True (λ r, row_key r ≠ k)) by done.
    destruct (decide (row_key r = k')) as [H2|H2].
    + rewrite !(filter_cons_True (λ r, row_key r = k')) by done.
      f_equal. exact IH.
    + rewrite !(filter_cons_False (λ r, row_key r = k')) by done.
      exact IH.
Qed.

Lemma others_preserves_unique k t : unique_keys t → unique_keys (others k t).
Proof.
  intros Hu k'. destruct (decide (k' = k)) as [->|Hne].
  - rewrite entries_others_same. simpl. lia.
  - rewrite entries_others_ne by done. apply Hu.
Qed.

(** After the DELETE nothing collides with the row about to be inserted,
    so [INSERT OR REPLACE] appends. *)
Lemma insert_after_delete k a now t :
  Sql.insert_or_replace (Row k.1 k.2 a now) (others k t)
  = others k t ++ [Row k.1 k.2 a now].
Proof.
  unfold Sql.insert_or_replace. f_equal.
  assert (Hall : Forall (λ old, ¬ Sql.collides (Row k.1 k.2 a now) old)
                        (others k t)).
  { apply Forall_forall. intros old Hin.
    apply list_elem_of_filter in Hin as [Hk _].
    intros (Hd & Hs & _). apply Hk.
    destruct k, old; unfold row_key; simpl in *; congruence. }
  induction Hall as [|old l Hold _ IH]; [done|].
  rewrite (filter_cons_True (λ old, ¬ Sql.collides (Row k.1 k.2 a now) old))
    by done.
  f_equal. exact IH.
Qed.

Lemma entries_app k t1 t2 : entries k (t1 ++ t2) = entries k t1 ++ entries k t2.
Proof. apply filter_app. Qed.

End CacheFacts.

(** *** The three operations, on a database that has its table *)

Lemma get_ip_from_db_table d s t :
  get_ip_from_db d s (Some t)
  = (Ok (ip <$> head (entries (key_of d s) t)), Some t).
Proof.
  unfold get_ip_from_db, Sql.on_table, Sql.fetchone.
  rewrite select_is_entries.
  by destruct (head (entries (key_of d s) t)).
Qed.

Lemma store_ip_in_db_table now d s a t :
  store_ip_in_db now d s a (Some t)
  = (Ok tt, Some (others (key_of d s) t ++ [Row d (truthy s) a now])).
Proof.
  unfold store_ip_in_db, Sql.on_table.
  rewrite delete_is_others.
  replace (match truthy s with
           | Some s' => Sql.insert_or_replace (Row d (Some s') a now)
                          (others (key_of d s) t)
           | None => Sql.insert_or_replace (Row d None a now)
                       (others (key_of d s) t)
           end)
    with (Sql.insert_or_replace (Row d (truthy s) a now)
            (others (key_of d s) t))
    by (by destruct (truthy s)).
  by rewrite (insert_after_delete (key_of d s)).
Qed.

Lemma check_if_resolution_valid_table now d s t :
  check_if_resolution_valid now d s (Some t)
  = match head (entries (key_of d s) t) with
    | Some r =>
        if expired now r then
          match truthy s with
          | Some _ => (Ok false, Some (others (key_of d s) t))
          | None => (Raise ProgrammingError, Some t)
          end
        else (Ok true, Some t)
    | None => (Ok false, Some t)
    end.
Proof.
  unfold check_if_resolution_valid, Sql.on_table, Sql.fetchone, expired.
  rewrite select_is_entries.
  destruct (head (entries (key_of d s) t)) as [r|]; [|done].
  destruct (now - timestamp r >? five_minutes); [|done].
  pose proof (delete_is_others d s t) as Hd.
  destruct (truthy s); [by rewrite Hd | done].
Qed.

Lemma others_no_entries k t : entries k t = [] → others k t = t.
Proof.
  unfold entries, others. induction t as [|r t IH]; [done|].
  destruct (decide (row_key r = k)) as [Heq|Hne].
  - rewrite (filter_cons_True (λ r, row_key r = k)) by done. done.
  - rewrite (filter_cons_False (λ r, row_key r = k)) by done.
    rewrite (filter_cons_True (λ r, row_key r ≠ k)) by done.
    intros H. f_equal. by apply IH.
Qed.

(** With a subdomain the check behaves as documented: it answers whether
    the entry is fresh, and an expired entry is gone afterwards. *)
Lemma check_if_resolution_valid_subdomain now d s t :
  truthy s ≠ None →
  check_if_resolution_valid now d s (Some t)
  = (Ok (fresh_entry now (key_of d s) t),
     Some (if fresh_entry now (key_of d s) t then t
           else others (key_of d s) t)).
Proof.
  intros Hs. rewrite check_if_resolution_valid_table. unfold fresh_entry.
  destruct (head (entries (key_of d s) t)) as [r|] eqn:Hh.
  - destruct (expired now r); simpl; [|done].
    by destruct (truthy s).
  - simpl. rewrite others_no_entries; [done|].
    by destruct (entries (key_of d s) t).
Qed.

(** Any later check of the evicted key, at any time, reports a miss. *)
Lemma check_after_eviction now' d s t :
  check_if_resolution_valid now' d s (Some (others (key_of d s) t))
  = (Ok false, Some (others (key_of d s) t)).
Proof.
  rewrite check_if_resolution_valid_table.
  by rewrite entries_others_same.
Qed.

(** Without a subdomain an expired entry makes the check raise, and the
    entry stays. *)
Lemma check_if_resolution_valid_no_subdomain_expired now d s r t :
  truthy s = None →
  head (entries (d, None) t) = Some r →
  expired now r = true →
  check_if_resolution_valid now d s (Some t) = (Raise ProgrammingError, Some t).
Proof.
  intros Hs Hh He. rewrite check_if_resolution_valid_table.
  unfold key_of. rewrite Hs, Hh, He. done.
Qed.

(** A check that answered [True] leaves the row for [get_ip_from_db]. *)
Lemma valid_then_cached now d s db db' :
  check_if_resolution_valid now d s db = (Ok true, db') →
  db' = db ∧ ∃ a, get_ip_from_db d s db' = (Ok (Some a), db').
Proof.
  destruct db as [t|]; [|discriminate].
  rewrite check_if_resolution_valid_table.
  destruct (head (entries (key_of d s) t)) as [r|] eqn:Hh; [|discriminate].
  destruct (expired now r).
  - destruct (truthy s); discriminate.
  - intros [= <-]. split; [done|]. rewrite get_ip_from_db_table, Hh. by eexists.
Qed.

(** C1. The validity check of the key (home.test, no subdomain) on a
    six-minute-old entry: the claim has it answer "not found" and delete the
    entry without raising; the code raises [ProgrammingError] out of the
    DELETE and leaves the entry in place, so the next check raises again. *)
Theorem check_if_resolution_valid_raises_without_subdomain :
  let t := [Row "home.test" None "192.168.1.10" 1000] in
  check_if_resolution_valid 1360 "home.test" None (Some t)
  = (Raise ProgrammingError, Some t).
Proof. reflexivity. Qed.

(** [CREATE TABLE IF NOT EXISTS] alone keeps the rows of a table that
    exists; it is the removal of the file that empties the cache. *)
Lemma create_table_if_not_exists_keeps_rows t :
  Sql.create_table_if_not_exists (Some t) = Some t.
Proof. reflexivity. Qed.

Lemma os_remove_existing f :
  os_path_exists f = true → os_remove f = (Ok tt, NoFile).
Proof. by destruct f. Qed.

Lemma create_db_recreates f : create_db f = (Ok tt, DbFile (Some [])).
Proof.
  unfold create_db. destruct (os_path_exists f) eqn:Hex.
  - by rewrite (os_remove_existing f Hex).
  - by destruct f.
Qed.

(** C10. Whatever the database file held (or if it was missing), the
    removal and the [CREATE TABLE IF NOT EXISTS] of [create_db] leave a
    file with the empty table: every read finds no address and every
    validity check answers [False], for every key and at every time; and
    a run of the server does not depend on what the file held before
    [start_dns_server]. *)
Theorem create_db_forgets_everything E cfg arrivals now d s (f : db_file) :
  create_db f = (Ok tt, DbFile (Some []))
  ∧ get_ip_from_db d s (sqlite3_connect (create_db f).2) = (Ok None, Some [])
  ∧ check_if_resolution_valid now d s (sqlite3_connect (create_db f).2)
    = (Ok false, Some [])
  ∧ start_dns_server E cfg arrivals f = serve E cfg arrivals (Some []).
Proof.
  unfold start_dns_server. rewrite create_db_recreates.
  cbn [snd sqlite3_connect].
  rewrite get_ip_from_db_table, check_if_resolution_valid_table.
  repeat split.
Qed.

(** ** Query name decomposition *)

Section SplitJoin.

Variable sep : ascii.

Lemma split_not_nil s : PyStr.split sep s ≠ [].
Proof.
  destruct s as [|c s]; simpl; [done|].
  destruct (Ascii.eqb c sep); [done|].
  by destruct (PyStr.split sep s).
Qed.

Lemma split_label p : has_char sep p = false → PyStr.split sep p = [p].
Proof.
  induction p as [|c p IH]; simpl; [done|].
  intros [Hc Hp]%orb_false_iff. rewrite Hc, IH by done. done.
Qed.

Lemma split_label_sep p rest :
  has_char sep p = false →
  PyStr.split sep (p ++ String sep rest) = p :: PyStr.split sep rest.
Proof.
  induction p as [|c p IH]; simpl.
  - intros _. by rewrite Ascii.eqb_refl.
  - intros [Hc Hp]%orb_false_iff. rewrite Hc, IH by done. done.
Qed.

Lemma split_labels s : Forall (λ p, has_char sep p = false) (PyStr.split sep s).
Proof.
  induction s as [|c s IH]; simpl.
  - by constructor.
  - destruct (Ascii.eqb c sep) eqn:Hc; [by constructor|].
    destruct IH as [|p ps Hp Hps].
    + constructor; [|done]. simpl. by rewrite Hc.
    + constructor; [|done]. simpl. by rewrite Hc.
Qed.

Lemma join_split s : PyStr.join (String sep "") (PyStr.split sep s) = s.
Proof.
  induction s as [|c s IH]; [done|]. simpl PyStr.split.
  destruct (Ascii.eqb c sep) eqn:Hc.
  - apply Ascii.eqb_eq in Hc as ->.
    pose proof (split_not_nil s) as Hn.
    destruct (PyStr.split sep s) as [|p ps]; [done|].
    change (String sep (PyStr.join (String sep "") (p :: ps)) = String sep s).
    by rewrite IH.
  - pose proof (split_not_nil s) as Hn.
    destruct (PyStr.split sep s) as [|p ps]; [done|].
    destruct ps as [|p' ps]; rewrite <- IH; reflexivity.
Qed.

Lemma split_join labels :
  labels ≠ [] →
  Forall (λ p, has_char sep p = false) labels →
  PyStr.split sep (PyStr.join (String sep "") labels) = labels.
Proof.
  intros Hn Hall. induction Hall as [|p ps Hp Hps IH]; [done|].
  destruct ps as [|p' ps].
  - simpl. by apply split_label.
  - change (PyStr.join (String sep "") (p :: p' :: ps))
      with (p ++ String sep (PyStr.join (String sep "") (p' :: ps)))%string.
    rewrite split_label_sep by done. f_equal. by apply IH.
Qed.

End SplitJoin.

(** C9. The dot-separated labels of a query name are [split "." qname] (the
    only non-empty list of dot-free strings that joins back to the name).
    With at most two labels the subdomain is absent and the domain is the
    whole name; otherwise the subdomain is the labels before the last two
    joined by dots and the domain the last two joined by a dot. *)
Theorem separate_domain_and_subdomain_labels (qname : string) :
  let labels := PyStr.split "." qname in
  let n := length labels in
  (Forall dot_free labels
   ∧ PyStr.join "." labels = qname
   ∧ ∀ labels', labels' ≠ [] ∧ Forall dot_free labels'
                ∧ PyStr.join "." labels' = qname ↔ labels' = labels)
  ∧ separate_domain_and_subdomain qname
    = if decide (n ≤ 2)%nat then (None, qname)
      else (Some (PyStr.join "." (take (n - 2) labels)),
            PyStr.join "." (drop (n - 2) labels)).
Proof.
  intros labels n. split; [split; [|split]|].
  - apply split_labels.
  - apply join_split.
  - intros labels'. split.
    + intros (Hn & Hall & <-). symmetry. by apply split_join.
    + intros ->. split; [apply split_not_nil|]. split;
        [apply split_labels | apply join_split].
  - unfold separate_domain_and_subdomain, PyStr.all_but_last_two,
      PyStr.last_two. fold labels. fold n.
    destruct (decide (n ≤ 2)%nat) as [Hle|Hgt].
    + by apply Nat.ltb_ge in Hle as ->.
    + apply Nat.nle_gt, Nat.ltb_lt in Hgt. by rewrite Hgt.
Qed.

(** ** Domain matching *)

Section Matching.

Implicit Types (qname : string) (it : item) (items : list item).

Lemma endswith_longer s c : PyStr.endswith s (String c s) = false.
Proof.
  unfold PyStr.endswith. simpl String.length.
  destruct (S (String.length s) <=? String.length s)%nat eqn:H; [|done].
  apply Nat.leb_le in H. lia.
Qed.

Lemma iteration_branches qname it :
  iteration qname it
  = match exact_match qname it with
    | Some h => Some h
    | None => subdomain_match qname it
    end.
Proof.
  destruct it as [d cd]. unfold iteration, exact_match, subdomain_match.
  simpl. by destruct (decide (qname = d)).
Qed.

Lemma branches_exclusive qname it :
  is_Some (subdomain_match qname it) → exact_match qname it = None.
Proof.
  destruct it as [d cd]. unfold exact_match, subdomain_match. simpl.
  destruct (decide (qname = d)) as [->|]; [|done].
  change ("." ++ d)%string with (String "." d).
  rewrite endswith_longer. by intros [? ?].
Qed.

Lemma exact_match_None qname it : exact_match qname it = None ↔ qname ≠ it.1.
Proof. unfold exact_match. by destruct (decide (qname = it.1)). Qed.

Lemma first_exact_None qname items :
  first_hit (exact_match qname) items = None ↔ qname ∉ items.*1.
Proof.
  induction items as [|it rest IH]; simpl.
  - split; [intros _; apply not_elem_of_nil | done].
  - rewrite not_elem_of_cons, <- IH, <- exact_match_None.
    destruct (exact_match qname it);
      (split; [intros ?; by split | by intros [? ?]]).
Qed.

Lemma first_exact_is_exact qname items h :
  first_hit (exact_match qname) items = Some h →
  ∃ target, h = ExactDomain qname target.
Proof.
  induction items as [|it rest IH]; simpl; [done|].
  unfold exact_match at 1.
  destruct (decide (qname = it.1)) as [Heq|]; [|exact IH].
  intros [= <-]. rewrite <- Heq. eauto.
Qed.

Lemma first_subdomain_is_subdomain qname items h :
  first_hit (subdomain_match qname) items = Some h →
  ∃ d sub target, h = Subdomain d sub target.
Proof.
  induction items as [|it rest IH]; simpl; [done|].
  unfold subdomain_match at 1.
  destruct (PyStr.endswith _ _); [|exact IH].
  destruct (cfg_subdomains it.2 !! _); [|exact IH].
  intros [= <-]. eauto.
Qed.

Lemma loop_without_shadow qname items :
  ¬ shadowed qname items →
  special_domains_loop qname items = spec_match qname items.
Proof.
  unfold spec_match. induction items as [|it rest IH]; intros Hns; [done|].
  simpl. rewrite iteration_branches.
  destruct (exact_match qname it) as [h|] eqn:He; [done|].
  destruct (subdomain_match qname it) as [h|] eqn:Hs.
  - destruct (first_hit (exact_match qname) rest) as [h'|] eqn:Hf; [|done].
    exfalso. apply Hns. exists [], it, rest.
    split; [done|]. split; [apply not_elem_of_nil|]. split; [by rewrite Hs|].
    destruct (decide (qname ∈ rest.*1)) as [|Hn]; [done|].
    apply first_exact_None in Hn. congruence.
  - apply IH. intros (pre & it' & post & -> & Hpre & Hsub & Hpost).
    apply Hns. exists (it :: pre), it', post.
    split; [done|]. split; [|done].
    rewrite fmap_cons, not_elem_of_cons. split; [|done].
    by apply exact_match_None.
Qed.

Lemma loop_with_shadow qname items :
  shadowed qname items →
  special_domains_loop qname items = first_hit (subdomain_match qname) items
  ∧ special_domains_loop qname items ≠ spec_match qname items.
Proof.
  intros Hsh.
  assert (Hloop : special_domains_loop qname items
                  = first_hit (subdomain_match qname) items
                  ∧ is_Some (first_hit (subdomain_match qname) items)
                  ∧ qname ∈ items.*1).
  { destruct Hsh as (pre & it & post & -> & Hpre & Hsub & Hpost).
    induction pre as [|p pre IH]; simpl.
    - rewrite iteration_branches, (branches_exclusive _ _ Hsub).
      destruct Hsub as [h ->]. split; [done|]. split; [by eexists|].
      by apply list_elem_of_further.
    - rewrite fmap_cons, not_elem_of_cons in Hpre. destruct Hpre as [Hp Hpre].
      rewrite iteration_branches.
      apply exact_match_None in Hp as Hp'. rewrite Hp'.
      destruct (IH Hpre) as (IH1 & IH2 & IH3).
      destruct (subdomain_match qname p) as [h|].
      + split; [done|]. split; [by eexists|]. by apply list_elem_of_further.
      + split; [done|]. split; [done|]. by apply list_elem_of_further. }
  destruct Hloop as (Heq & [h Hh] & Hin). split; [done|].
  rewrite Heq, Hh. unfold spec_match.
  destruct (first_hit (exact_match qname) items) as [h'|] eqn:He.
  - apply first_exact_is_exact in He as [target ->].
    apply first_subdomain_is_subdomain in Hh as (d & sub & tg & ->). done.
  - apply first_exact_None in He. done.
Qed.

Lemma loop_finds_configured_domain qname items :
  qname ∈ items.*1 → is_Some (special_domains_loop qname items).
Proof.
  induction items as [|it rest IH]; simpl.
  - by intros ?%elem_of_nil.
  - rewrite iteration_branches. intros [Heq|Hin]%elem_of_cons.
    + unfold exact_match. rewrite decide_True by done. by eexists.
    + destruct (exact_match qname it); [by eexists|].
      destruct (subdomain_match qname it); [by eexists|]. by apply IH.
Qed.

End Matching.

(** C3, as stated, fails: "www.example.com" is a configured domain, the
    specification's matcher answers it as an exact match, and the loop
    answers it as the subdomain "www" of the earlier-listed "example.com". *)
Lemma exact_match_shadowed_by_earlier_subdomain :
  "www.example.com" ∈ shadowing_config.*1
  ∧ spec_match "www.example.com" shadowing_config
    = Some (ExactDomain "www.example.com" "10.0.0.3")
  ∧ special_domains_loop "www.example.com" shadowing_config
    = Some (Subdomain "example.com" "www" "10.0.0.2").
Proof.
  split; [|split]; [|by vm_compute..].
  apply list_elem_of_further, list_elem_of_here.
Qed.

(** C3, amended. The loop stops at the first configured domain, in
    configured order, that equals the query name or lists it as a
    subdomain.  A query name equal to a configured domain is never a
    no-match.  The loop agrees with the specification's matcher (first
    exact match, else first subdomain match) unless a subdomain match is
    listed before the first domain equal to the name; in that case the loop
    returns that first subdomain match. *)
Theorem special_domains_loop_first_hit (qname : string) (items : list item) :
  special_domains_loop qname items = first_hit (iteration qname) items
  ∧ (qname ∈ items.*1 → is_Some (special_domains_loop qname items))
  ∧ (¬ shadowed qname items →
       special_domains_loop qname items = spec_match qname items)
  ∧ (shadowed qname items →
       special_domains_loop qname items
       = first_hit (subdomain_match qname) items).
Proof.
  split; [|split; [|split]].
  - induction items as [|it rest IH]; [done|]. simpl. by rewrite IH.
  - apply loop_finds_configured_domain.
  - apply loop_without_shadow.
  - intros Hsh. by apply loop_with_shadow.
Qed.

(** ** The address resolver *)

Section Resolver.

Context (E : collaborators).

Lemma is_valid_ip_nul s :
  PyStr.contains "000" s = true →
  is_valid_ip E s = Raise (ValueError "embedded null character").
Proof. intros H. unfold is_valid_ip, socket_inet_pton. by rewrite H. Qed.

Lemma is_valid_ip_no_nul s :
  PyStr.contains "000" s = false → ∃ o, is_valid_ip E s = Ok o.
Proof.
  intros H. unfold is_valid_ip, socket_inet_pton. rewrite H.
  destruct (inet_pton E AF_INET s); [eauto|].
  destruct (inet_pton E AF_INET6 s); eauto.
Qed.

Lemma is_valid_ip_ok_no_nul s o :
  is_valid_ip E s = Ok o → PyStr.contains "000" s = false.
Proof.
  destruct (PyStr.contains "000" s) eqn:H; [|done].
  by rewrite is_valid_ip_nul.
Qed.

Lemma get_ip_or_domain_literal s ty :
  is_valid_ip E s = Ok (Some ty) → get_ip_or_domain E s = Ok s.
Proof. intros H. unfold get_ip_or_domain. by rewrite H. Qed.

Lemma get_ip_or_domain_lookup s :
  is_valid_ip E s = Ok None →
  get_ip_or_domain E s
  = match dns_resolver_resolve E s with
    | inr first => Ok first
    | inl _ => Ok s
    end.
Proof.
  intros H. unfold get_ip_or_domain. rewrite H.
  by destruct (dns_resolver_resolve E s).
Qed.


(** On a string without NUL the resolver does not raise. *)
Lemma get_ip_or_domain_total s :
  PyStr.contains "000" s = false → ∃ a, get_ip_or_domain E s = Ok a.
Proof.
  intros H. destruct (is_valid_ip_no_nul s H) as [[ty|] Hv].
  - exists s. by eapply get_ip_or_domain_literal.
  - rewrite get_ip_or_domain_lookup by done.
    destruct (dns_resolver_resolve E s); eauto.
Qed.


End Resolver.




(** ** The query resolution engine *)

Section EngineFacts.

Context (E : collaborators).

Lemma respond_with_table now a q d s t :
  respond_with E now a q d s (Some t)
  = match create_dns_record E (match truthy s with
                               | Some s' => (s' ++ "." ++ d)%string
                               | None => d
                               end) 3600 a with
    | Ok rr =>
        (Ok (Message q NOERROR [rr]),
         Some (others (key_of d s) t ++ [Row d (truthy s) a now]))
    | Raise e => (Raise e, Some t)
    end.
Proof.
  unfold respond_with, bind, lift, start_store_thread, try_except, ret.
  destruct (create_dns_record E _ 3600 a) as [rr|e]; [|done].
  by rewrite store_ip_in_db_table.
Qed.

(** The three ways [create_dns_entry] decides the address, and the fourth
    outcome: the exception out of the validity check. *)
Lemma create_dns_entry_table now a q d s t :
  create_dns_entry E now a q d s (Some t)
  = match head (entries (key_of d s) t) with
    | Some r =>
        if expired now r then
          match truthy s with
          | Some _ =>
              resolve_and_respond E now a q d s (Some (others (key_of d s) t))
          | None => (Raise ProgrammingError, Some t)
          end
        else if decide (ip r = a) then respond_with E now (ip r) q d s (Some t)
        else resolve_and_respond E now a q d s (Some t)
    | None => resolve_and_respond E now a q d s (Some t)
    end.
Proof.
  unfold create_dns_entry, resolve_and_respond. unfold bind at 1 2.
  rewrite check_if_resolution_valid_table.
  destruct (head (entries (key_of d s) t)) as [r|] eqn:Hh; [|done].
  destruct (expired now r); [by destruct (truthy s)|].
  unfold bind at 1. rewrite get_ip_from_db_table, Hh. simpl.
  destruct (decide (ip r = a)) as [Heq|Hne].
  - by rewrite decide_False by (by intros ?).
  - by rewrite decide_True.
Qed.

End EngineFacts.

Section Responses.

Context (E : collaborators).

Lemma respond_with_response now a q d s db m db' :
  respond_with E now a q d s db = (Ok m, db') →
  ∃ rr, m = Message q NOERROR [rr].
Proof.
  unfold respond_with, bind, lift, start_store_thread, try_except, ret.
  destruct (create_dns_record E _ 3600 a) as [rr|e]; [|done].
  destruct (store_ip_in_db now d s a db) as [[[]|e] db'']; intros [= <- _]; eauto.
Qed.

Lemma create_dns_entry_response now a q d s db m db' :
  create_dns_entry E now a q d s db = (Ok m, db') →
  ∃ rr, m = Message q NOERROR [rr].
Proof.
  unfold create_dns_entry. unfold bind at 1 2.
  destruct (check_if_resolution_valid now d s db) as [[valid|e] db1]; [|done].
  destruct valid.
  - unfold bind at 1.
    destruct (get_ip_from_db d s db1) as [[old_ip|e] db2]; [|done].
    destruct (decide (str old_ip ≠ a)).
    + unfold lift. destruct (get_ip_or_domain E a); [|done].
      apply respond_with_response.
    + destruct old_ip; [|done]. apply respond_with_response.
  - unfold lift. destruct (get_ip_or_domain E a); [|done].
    apply respond_with_response.
Qed.

(** [resolve_mdns] never raises and never returns a server-failure
    response: it returns [None], or the answer built by
    [create_dns_entry]. *)
Lemma resolve_mdns_outcome now host q d s db r db' :
  resolve_mdns E now host q d s db = (r, db') →
  r = Ok None ∨ ∃ rr, r = Ok (Some (Message q NOERROR [rr])).
Proof.
  unfold resolve_mdns, try_except, set_rcode. simpl snd.
  unfold bind at 1. unfold lift at 1.
  destruct (avahi_resolve E host) as [[returncode stdout]|e];
    [|intros [= <- _]; by left].
  destruct (returncode =? 0); [|intros [= <- _]; by left].
  unfold bind at 1. unfold lift at 1.
  destruct (index1 _) as [a|e]; [|intros [= <- _]; by left].
  unfold bind at 1. unfold lift at 1.
  destruct (is_valid_ip E a) as [[ty|]|e]; [|intros [= <- _]; by left..].
  unfold bind.
  destruct (create_dns_entry E now a q d s db) as [[m|e] db1] eqn:Hc;
    [|intros [= <- _]; by left].
  apply create_dns_entry_response in Hc as [rr ->].
  intros [= <- _]. right. by eexists.
Qed.

(** Each way the local-network resolution can fail makes [resolve_mdns]
    return [None]. *)
Lemma resolve_mdns_failure now host q d s db :
  match avahi_resolve E host with
  | Raise _ => True
  | Ok (returncode, stdout) =>
      returncode ≠ 0
      ∨ match index1 (PyStr.split "009" (PyStr.strip PyStr.isspace stdout)) with
        | Raise _ => True
        | Ok a => ∀ ty, is_valid_ip E a ≠ Ok (Some ty)
        end
  end →
  resolve_mdns E now host q d s db = (Ok None, db).
Proof.
  unfold resolve_mdns, try_except, set_rcode. simpl snd.
  unfold bind at 1. unfold lift at 1.
  destruct (avahi_resolve E host) as [[returncode stdout]|e]; [|done].
  destruct (returncode =? 0) eqn:Hrc; [|done].
  apply Z.eqb_eq in Hrc. intros [?|H]; [done|].
  unfold bind at 1. unfold lift at 1.
  destruct (index1 _) as [a|e]; [|done].
  unfold bind at 1. unfold lift at 1.
  destruct (is_valid_ip E a) as [[ty|]|e]; [|done..].
  by specialize (H ty).
Qed.

(** So a failed local-network resolution of a matched query ends in
    [AttributeError] at [response.to_wire()]. *)
Lemma handle_dns_query_mdns_failure now q cfg db d sub target :
  special_domains_loop (PyStr.strip PyStr.is_dot (question_name q))
    (special_domains cfg)
  = Some (match sub with
          | Some s => Subdomain d s target
          | None => ExactDomain d target
          end) →
  PyStr.endswith target ".local" = true →
  resolve_mdns E now target q d sub db = (Ok None, db) →
  handle_dns_query E now q cfg db = (Raise AttributeError, db).
Proof.
  intros Hhit Hlocal Hmdns. unfold handle_dns_query. rewrite Hhit.
  destruct sub; rewrite Hlocal; unfold bind; by rewrite Hmdns.
Qed.

End Responses.

(** C8. With "home.test" configured as 192.168.1.10 without subdomains and
    an empty cache, a query whose name reads "home.test" is answered with
    success and exactly one record: type A, name "home.test", address
    192.168.1.10, TTL 3600 (and the address is then cached). *)
Theorem exact_match_scenario (E : collaborators) (now : Z) (q : query) :
  inet_pton E AF_INET "192.168.1.10" = true →
  PyStr.strip PyStr.is_dot (question_name q) = "home.test" →
  handle_dns_query E now q home_test_config (Some [])
  = (Ok (Message q NOERROR [RRset "home.test" RR_A 3600 "192.168.1.10"]),
     Some [Row "home.test" None "192.168.1.10" now]).
Proof.
  intros Hv4 Hname.
  assert (Hvalid : is_valid_ip E "192.168.1.10" = Ok (Some IPv4)).
  { unfold is_valid_ip, socket_inet_pton. simpl PyStr.contains.
    by rewrite Hv4. }
  unfold handle_dns_query. rewrite Hname.
  change (special_domains_loop "home.test" (special_domains home_test_config))
    with (Some (ExactDomain "home.test" "192.168.1.10")).
  cbv iota.
  change (PyStr.endswith "192.168.1.10" ".local") with false.
  cbv iota. unfold bind at 1. cbv beta.
  rewrite create_dns_entry_table.
  change (head (entries (key_of "home.test" None) [])) with (@None row).
  cbv iota. unfold resolve_and_respond, bind, lift.
  rewrite (get_ip_or_domain_literal E _ IPv4 Hvalid).
  rewrite respond_with_table. unfold create_dns_record. simpl truthy.
  rewrite Hvalid. reflexivity.
Qed.

Lemma exact_match_scenario_witness :
  handle_dns_query World.offline 100 (Query 7 ["home"; "test"; ""]) home_test_config
    (Some [])
  = (Ok (Message (Query 7 ["home"; "test"; ""]) NOERROR
           [RRset "home.test" RR_A 3600 "192.168.1.10"]),
     Some [Row "home.test" None "192.168.1.10" 100]).
Proof.
  apply (exact_match_scenario World.offline 100 (Query 7 ["home"; "test"; ""]));
    reflexivity.
Defined.

Section Decision.

Context (E : collaborators).

Lemma create_dns_entry_cached_differs now a q d s t r :
  head (entries (key_of d s) t) = Some r →
  expired now r = false →
  ip r ≠ a →
  create_dns_entry E now a q d s (Some t)
  = resolve_and_respond E now a q d s (Some t).
Proof.
  intros Hh He Hne. rewrite create_dns_entry_table, Hh, He.
  by rewrite decide_False.
Qed.

Lemma create_dns_entry_cached_same now a q d s t r :
  head (entries (key_of d s) t) = Some r →
  expired now r = false →
  ip r = a →
  create_dns_entry E now a q d s (Some t)
  = respond_with E now (ip r) q d s (Some t).
Proof.
  intros Hh He Heq. rewrite create_dns_entry_table, Hh, He.
  by rewrite decide_True.
Qed.

Lemma create_dns_entry_miss now a q d s t :
  head (entries (key_of d s) t) = None →
  create_dns_entry E now a q d s (Some t)
  = resolve_and_respond E now a q d s (Some t).
Proof. intros Hh. by rewrite create_dns_entry_table, Hh. Qed.

Lemma create_dns_entry_expired_subdomain now a q d s t r :
  truthy s ≠ None →
  head (entries (key_of d s) t) = Some r →
  expired now r = true →
  create_dns_entry E now a q d s (Some t)
  = resolve_and_respond E now a q d s (Some (others (key_of d s) t)).
Proof.
  intros Hs Hh He. rewrite create_dns_entry_table, Hh, He.
  by destruct (truthy s).
Qed.

Lemma create_dns_entry_expired_no_subdomain now a q d s t r :
  truthy s = None →
  head (entries (key_of d s) t) = Some r →
  expired now r = true →
  create_dns_entry E now a q d s (Some t) = (Raise ProgrammingError, Some t).
Proof.
  intros Hs Hh He. by rewrite create_dns_entry_table, Hh, He, Hs.
Qed.

(** Reusing the cached address asks the public resolver nothing: the
    outcome is the same whatever the resolver would answer. *)
Lemma respond_with_ignores_resolver E' now a q d s db :
  inet_pton E' = inet_pton E →
  respond_with E' now a q d s db = respond_with E now a q d s db.
Proof.
  intros Hp. unfold respond_with, create_dns_record, is_valid_ip,
    socket_inet_pton.
  by rewrite Hp.
Qed.

(** On a query that matches nothing the outcome of the handler is a
    response: the [except] clause of the last branch takes every
    exception. *)
Lemma handle_dns_query_no_match now q cfg db :
  special_domains_loop (PyStr.strip PyStr.is_dot (question_name q))
    (special_domains cfg) = None →
  ∃ m db', handle_dns_query E now q cfg db = (Ok m, db').
Proof.
  intros Hhit. unfold handle_dns_query. rewrite Hhit.
  unfold bind, try_except.
  destruct (resolve_dns_entry E now _ q db) as [[m|e] db']; simpl; eauto.
Qed.

(** A matched target that is neither a literal nor resolvable, with
    nothing cached for the key: the [ValueError] of [create_dns_record]
    leaves [handle_dns_query]. *)
Lemma handle_dns_query_unresolvable_target now q cfg t d sub target f :
  special_domains_loop (PyStr.strip PyStr.is_dot (question_name q))
    (special_domains cfg)
  = Some (match sub with
          | Some s => Subdomain d s target
          | None => ExactDomain d target
          end) →
  PyStr.endswith target ".local" = false →
  head (entries (key_of d sub) t) = None →
  is_valid_ip E target = Ok None →
  dns_resolver_resolve E target = inl f →
  handle_dns_query E now q cfg (Some t)
  = (Raise (ValueError "Invalid IP address format"), Some t).
Proof.
  intros Hhit Hlocal Hmiss Hinvalid Hfail.
  assert (Hentry : create_dns_entry E now target q d sub (Some t)
                   = (Raise (ValueError "Invalid IP address format"), Some t)).
  { rewrite create_dns_entry_miss by done.
    unfold resolve_and_respond, bind, lift.
    rewrite get_ip_or_domain_lookup, Hfail by done.
    rewrite respond_with_table. unfold create_dns_record.
    by rewrite Hinvalid. }
  unfold handle_dns_query. rewrite Hhit.
  destruct sub; rewrite Hlocal; unfold bind; by rewrite Hentry.
Qed.

End Decision.

(** C5. The entry (home.test, no subdomain) is cached and six minutes old
    when "home.test" is matched again: no valid entry exists, so the claim
    has the configured target resolved and served; the code raises
    [ProgrammingError] in the validity check, before any resolution. *)
Theorem create_dns_entry_raises_on_expired_entry (E : collaborators) :
  let t := [Row "home.test" None "192.168.1.10" 1000] in
  create_dns_entry E 1360 "192.168.1.10" (Query 7 ["home"; "test"; ""]) "home.test"
    None (Some t)
  = (Raise ProgrammingError, Some t).
Proof. reflexivity. Qed.

(** C2. "home.test" is configured with the target "nas.invalid", which no
    lookup resolves: the claim has the failure absorbed into a response;
    the code lets [ValueError] out of [handle_dns_query], and the serving
    loop ends on it with the second query unanswered. *)
Theorem handle_dns_query_raises_on_unresolvable_target :
  handle_dns_query World.offline 100 (Query 7 ["home"; "test"; ""])
    unresolvable_config (Some [])
  = (Raise (ValueError "Invalid IP address format"), Some [])
  ∧ start_dns_server World.offline unresolvable_config
      [(100, Query 7 ["home"; "test"; ""]); (101, Query 8 ["example"; "org"; ""])] NoFile
    = (Raise (ValueError "Invalid IP address format"), Some []).
Proof. split; reflexivity. Qed.

(** C4. "printer.test" is configured with the target "printer.local" and
    the local-network resolution exits with status 1: the claim has a
    server-failure response returned; [resolve_mdns] returns [None] and
    [handle_dns_query] raises [AttributeError]. *)
Theorem handle_dns_query_raises_on_mdns_failure :
  avahi_resolve World.offline "printer.local" = Ok (1, "")
  ∧ resolve_mdns World.offline 100 "printer.local" (Query 7 ["printer"; "test"; ""])
      "printer.test" None (Some [])
    = (Ok None, Some [])
  ∧ handle_dns_query World.offline 100 (Query 7 ["printer"; "test"; ""]) local_config
      (Some [])
    = (Raise AttributeError, Some []).
Proof. repeat split; reflexivity. Qed.

(** ** The invariant along a run *)

Section Invariant.

Context (E : collaborators).

Lemma keeps_ret {A} (a : A) : keeps (ret a).
Proof. by intros db Hu. Qed.

Lemma keeps_raise {A} e : keeps (@raise A e).
Proof. by intros db Hu. Qed.

Lemma keeps_lift {A} (r : result A) : keeps (lift r).
Proof. by intros db Hu. Qed.

Lemma keeps_bind {A B} (m : M A) (k : A → M B) :
  keeps m → (∀ a, keeps (k a)) → keeps (bind m k).
Proof.
  intros Hm Hk db Hu. unfold bind. specialize (Hm db Hu).
  destruct (m db) as [[a|e] db']; simpl in *; [by apply Hk | done].
Qed.

Lemma keeps_try_except {A} (m : M A) (h : exn → M A) :
  keeps m → (∀ e, keeps (h e)) → keeps (try_except m h).
Proof.
  intros Hm Hh db Hu. unfold try_except. specialize (Hm db Hu).
  destruct (m db) as [[a|e] db']; simpl in *; [done | by apply Hh].
Qed.

Lemma append_preserves_unique k a now t :
  unique_keys t → unique_keys (others k t ++ [Row k.1 k.2 a now]).
Proof.
  intros Hu k'. rewrite entries_app. unfold entries at 2.
  destruct (decide (k' = k)) as [->|Hne].
  - rewrite entries_others_same.
    rewrite (filter_cons_True (λ r, row_key r = k)) by (by destruct k).
    simpl. lia.
  - rewrite entries_others_ne by done.
    rewrite (filter_cons_False (λ r, row_key r = k'))
      by (destruct k; unfold row_key; simpl; congruence).
    rewrite app_nil_r. apply Hu.
Qed.

Lemma keeps_store_ip_in_db now d s a : keeps (store_ip_in_db now d s a).
Proof.
  intros [t|] Hu; [|done]. rewrite store_ip_in_db_table. simpl.
  by apply (append_preserves_unique (key_of d s)).
Qed.

Lemma keeps_get_ip_from_db d s : keeps (get_ip_from_db d s).
Proof. intros [t|] Hu; [|done]. by rewrite get_ip_from_db_table. Qed.

Lemma keeps_check_if_resolution_valid now d s :
  keeps (check_if_resolution_valid now d s).
Proof.
  intros [t|] Hu; [|done]. rewrite check_if_resolution_valid_table.
  destruct (head (entries (key_of d s) t)) as [r|]; [|done].
  destruct (expired now r); [|done].
  destruct (truthy s); [|done]. simpl. by apply others_preserves_unique.
Qed.

Hint Resolve keeps_ret keeps_raise keeps_lift keeps_store_ip_in_db
  keeps_get_ip_from_db keeps_check_if_resolution_valid : keeps.

Ltac keeps_step :=
  first [ apply keeps_bind; [|intros ?]
        | apply keeps_try_except; [|intros ?]
        | progress auto with keeps ].

Lemma keeps_start_store_thread now d s a :
  keeps (start_store_thread now d s a).
Proof. unfold start_store_thread. repeat keeps_step. Qed.

Lemma keeps_respond_with now a q d s : keeps (respond_with E now a q d s).
Proof.
  unfold respond_with. repeat keeps_step.
Qed.

Lemma keeps_create_dns_entry now a q d s :
  keeps (create_dns_entry E now a q d s).
Proof.
  unfold create_dns_entry. apply keeps_bind; [auto with keeps|].
  intros valid. apply keeps_bind; [|intros ?; apply keeps_respond_with].
  destruct valid; [|auto with keeps].
  apply keeps_bind; [auto with keeps|]. intros old_ip.
  destruct (decide (str old_ip ≠ a)); [auto with keeps|].
  destruct old_ip; auto with keeps.
Qed.

Lemma keeps_resolve_mdns now host q d s :
  keeps (resolve_mdns E now host q d s).
Proof.
  unfold resolve_mdns. apply keeps_try_except; [|auto with keeps].
  apply keeps_bind; [auto with keeps|]. intros [returncode stdout].
  destruct (returncode =? 0); [|auto with keeps].
  apply keeps_bind; [auto with keeps|]. intros a.
  apply keeps_bind; [auto with keeps|]. intros [ty|]; [|auto with keeps].
  apply keeps_bind; [apply keeps_create_dns_entry | auto with keeps].
Qed.

Lemma keeps_resolve_dns_entry now qname q :
  keeps (resolve_dns_entry E now qname q).
Proof.
  unfold resolve_dns_entry.
  destruct (separate_domain_and_subdomain qname) as [s d].
  apply keeps_bind; [auto with keeps|]. intros [|].
  - apply keeps_bind; [auto with keeps|]. intros [a|]; [|auto with keeps].
    apply keeps_bind; [apply keeps_create_dns_entry|]. intros m.
    apply keeps_bind; [apply keeps_start_store_thread | auto with keeps].
  - apply keeps_bind; [auto with keeps|]. intros a.
    apply keeps_bind; [auto with keeps|]. intros m.
    apply keeps_bind; [apply keeps_start_store_thread | auto with keeps].
Qed.

Lemma keeps_to_wire response : keeps (to_wire response).
Proof. destruct response; simpl; auto with keeps. Qed.

Lemma keeps_handle_dns_query now q cfg : keeps (handle_dns_query E now q cfg).
Proof.
  unfold handle_dns_query.
  destruct (special_domains_loop _ _) as [[d target|d sub target]|].
  - destruct (PyStr.endswith target ".local");
      (apply keeps_bind; [|intros ?; apply keeps_to_wire]);
      [apply keeps_resolve_mdns | apply keeps_create_dns_entry].
  - destruct (PyStr.endswith target ".local");
      (apply keeps_bind; [|intros ?; apply keeps_to_wire]);
      [apply keeps_resolve_mdns | apply keeps_create_dns_entry].
  - apply keeps_bind; [|intros ?; apply keeps_to_wire].
    apply keeps_try_except; [apply keeps_resolve_dns_entry | auto with keeps].
Qed.

Lemma keeps_serve cfg arrivals : keeps (serve E cfg arrivals).
Proof.
  induction arrivals as [|[now q] rest IH]; simpl; [auto with keeps|].
  apply keeps_bind; [apply keeps_handle_dns_query|]. intros m.
  apply keeps_bind; [exact IH | auto with keeps].
Qed.

(** From startup on, whatever the file held and whatever arrives. *)
Lemma start_dns_server_unique cfg arrivals f :
  db_unique (start_dns_server E cfg arrivals f).2.
Proof.
  unfold start_dns_server. rewrite create_db_recreates.
  apply keeps_serve. intros k. simpl. lia.
Qed.

End Invariant.

(** C7. At most one entry per key.  [store_ip_in_db] deletes the rows of
    its key and inserts the new one, so that afterwards exactly the new row
    (new address, current timestamp) is under the key, whatever was there
    before, and no other key is touched.  The invariant is kept by
    [store_ip_in_db], [get_ip_from_db], [check_if_resolution_valid] and by
    the handling of a whole query, on every database. *)
Theorem cache_key_uniqueness E now d s a q cfg db :
  db_unique db →
  db_unique (store_ip_in_db now d s a db).2
  ∧ db_unique (get_ip_from_db d s db).2
  ∧ db_unique (check_if_resolution_valid now d s db).2
  ∧ db_unique (handle_dns_query E now q cfg db).2
  ∧ (∀ t, db = Some t →
       ∃ t', store_ip_in_db now d s a db = (Ok tt, Some t')
             ∧ entries (key_of d s) t' = [Row d (truthy s) a now]
             ∧ ∀ k, k ≠ key_of d s → entries k t' = entries k t).
Proof.
  intros Hu.
  split; [by apply keeps_store_ip_in_db|].
  split; [by apply keeps_get_ip_from_db|].
  split; [by apply keeps_check_if_resolution_valid|].
  split; [by apply keeps_handle_dns_query|].
  intros t ->. rewrite store_ip_in_db_table. eexists. split; [done|].
  split.
  - rewrite entries_app, entries_others_same. unfold entries.
    by rewrite (filter_cons_True (λ r, row_key r = key_of d s)).
  - intros k Hk. rewrite entries_app, entries_others_ne by done.
    unfold entries at 2.
    rewrite (filter_cons_False (λ r, row_key r = k)) by (by intros <-).
    apply app_nil_r.
Qed.

(** An overwrite: the configured target changed while the old address was
    cached. *)
Lemma cache_key_uniqueness_witness :
  let db := Some [Row "home.test" None "192.168.1.10" 1000] in
  db_unique db
  ∧ db_unique (store_ip_in_db 1100 "home.test" None "192.168.1.99" db).2
  ∧ store_ip_in_db 1100 "home.test" None "192.168.1.99" db
    = (Ok tt, Some [Row "home.test" None "192.168.1.99" 1100]).
Proof.
  assert (Hu : db_unique (Some [Row "home.test" None "192.168.1.10" 1000])).
  { intros k. apply (length_filter (λ r, row_key r = k)). }
  split; [exact Hu|]. split; [|reflexivity].
  exact (proj1 (cache_key_uniqueness World.offline 1100 "home.test" None
                  "192.168.1.99" (Query 7 ["home"; "test"; ""]) home_test_config
                  _ Hu)).
Defined.

(** * Part IV: further properties of the code *)

(** ** The cache operations together *)

Section CacheRoundTrip.

Implicit Types (t : table) (k : cache_key) (r : row).

Lemma entries_after_store k a now t :
  entries k (others k t ++ [Row k.1 k.2 a now]) = [Row k.1 k.2 a now].
Proof.
  rewrite entries_app, entries_others_same. unfold entries.
  by rewrite (filter_cons_True (λ r, row_key r = k)) by (by destruct k).
Qed.

Lemma entries_after_store_ne k k' a now t :
  k' ≠ k → entries k' (others k t ++ [Row k.1 k.2 a now]) = entries k' t.
Proof.
  intros Hne. rewrite entries_app, entries_others_ne by done.
  unfold entries at 2.
  rewrite (filter_cons_False (λ r, row_key r = k'))
    by (destruct k; unfold row_key; simpl; congruence).
  apply app_nil_r.
Qed.

Lemma expired_false_iff now r :
  expired now r = false ↔ now - timestamp r ≤ five_minutes.
Proof. unfold expired. rewrite Z.gtb_ltb, Z.ltb_ge. done. Qed.

Lemma expired_true_iff now r :
  expired now r = true ↔ five_minutes < now - timestamp r.
Proof. unfold expired. rewrite Z.gtb_ltb, Z.ltb_lt. done. Qed.

End CacheRoundTrip.

(** X1. What [store_ip_in_db] wrote is what the reads of the same key find:
    [get_ip_from_db] returns the stored address, and
    [check_if_resolution_valid] answers [True] and changes nothing at every
    clock reading up to 300 seconds after the write.  The key is the domain
    and the subdomain as Python tests it, so the empty string and [None]
    address the same entry. *)
Theorem store_then_read (now : Z) (d : string) (s s' : option string)
    (a : string) (t : table) :
  truthy s' = truthy s →
  ∃ t', store_ip_in_db now d s a (Some t) = (Ok tt, Some t')
        ∧ get_ip_from_db d s' (Some t') = (Ok (Some a), Some t')
        ∧ ∀ now', now' - now ≤ five_minutes →
            check_if_resolution_valid now' d s' (Some t') = (Ok true, Some t').
Proof.
  intros Hs. rewrite store_ip_in_db_table. eexists. split; [done|].
  assert (Hk : key_of d s' = key_of d s) by (unfold key_of; by rewrite Hs).
  split.
  - rewrite get_ip_from_db_table, Hk.
    by rewrite (entries_after_store (key_of d s)).
  - intros now' Hage. rewrite check_if_resolution_valid_table, Hk.
    rewrite (entries_after_store (key_of d s)).
    assert (He : expired now' (Row d (truthy s) a now) = false)
      by (by apply expired_false_iff).
    cbn [head key_of fst snd]. by rewrite He.
Qed.

Lemma store_then_read_witness :
  ∃ t', store_ip_in_db 1000 "home.test" (Some "") "192.168.1.10"
          (Some [Row "home.test" None "192.168.1.9" 10])
        = (Ok tt, Some t')
        ∧ get_ip_from_db "home.test" None (Some t')
          = (Ok (Some "192.168.1.10"), Some t')
        ∧ ∀ now', now' - 1000 ≤ five_minutes →
            check_if_resolution_valid now' "home.test" None (Some t')
            = (Ok true, Some t').
Proof.
  apply (store_then_read 1000 "home.test" (Some "") None "192.168.1.10").
  reflexivity.
Defined.

(** X2. A write under one key changes no read of another key:
    [get_ip_from_db] and [check_if_resolution_valid] of any other key give
    the same result after the write as before it. *)
Theorem store_leaves_other_keys (now now2 : Z) (d d2 : string)
    (s s2 : option string) (a : string) (t : table) :
  key_of d2 s2 ≠ key_of d s →
  ∃ t', store_ip_in_db now d s a (Some t) = (Ok tt, Some t')
        ∧ (get_ip_from_db d2 s2 (Some t')).1
          = (get_ip_from_db d2 s2 (Some t)).1
        ∧ (check_if_resolution_valid now2 d2 s2 (Some t')).1
          = (check_if_resolution_valid now2 d2 s2 (Some t)).1.
Proof.
  intros Hne. rewrite store_ip_in_db_table. eexists. split; [done|].
  rewrite !get_ip_from_db_table, !check_if_resolution_valid_table.
  rewrite (entries_after_store_ne (key_of d s)) by done.
  split; [done|].
  destruct (head (entries (key_of d2 s2) t)) as [r|]; [|done].
  destruct (expired now2 r); [|done]. by destruct (truthy s2).
Qed.

Lemma store_leaves_other_keys_witness :
  ∃ t', store_ip_in_db 1000 "home.test" (Some "nas") "192.168.1.20"
          (Some [Row "home.test" None "192.168.1.10" 900])
        = (Ok tt, Some t')
        ∧ (get_ip_from_db "home.test" None (Some t')).1
          = (get_ip_from_db "home.test" None
               (Some [Row "home.test" None "192.168.1.10" 900])).1
        ∧ (check_if_resolution_valid 1001 "home.test" None (Some t')).1
          = (check_if_resolution_valid 1001 "home.test" None
               (Some [Row "home.test" None "192.168.1.10" 900])).1.
Proof.
  apply (store_leaves_other_keys 1000 1001 "home.test" "home.test"
           (Some "nas") None "192.168.1.20").
  discriminate.
Defined.

(** X3. For a key with a non-empty subdomain the validity check answers
    [True] exactly when the key has a row at most 300 seconds old, and then
    changes nothing; when it answers [False] no row of the key is left, so
    [get_ip_from_db] finds nothing, and the rows of other keys are as
    before. *)
Theorem check_with_subdomain (now : Z) (d : string) (s : option string)
    (t : table) :
  truthy s ≠ None →
  ∃ b t',
    check_if_resolution_valid now d s (Some t) = (Ok b, Some t')
    ∧ (b = true ↔ ∃ r, head (entries (key_of d s) t) = Some r
                       ∧ now - timestamp r ≤ five_minutes)
    ∧ (b = true → t' = t)
    ∧ (b = false →
         entries (key_of d s) t' = []
         ∧ get_ip_from_db d s (Some t') = (Ok None, Some t')
         ∧ ∀ k, k ≠ key_of d s → entries k t' = entries k t).
Proof.
  intros Hs. rewrite check_if_resolution_valid_table.
  destruct (head (entries (key_of d s) t)) as [r|] eqn:Hh.
  - destruct (expired now r) eqn:He.
    + destruct (truthy s) as [s'|] eqn:Hts; [|done].
      exists false, (others (key_of d s) t). split; [done|].
      split; [|split; [done|]].
      * split; [done|]. intros (r' & [= <-] & Hage).
        apply expired_false_iff in Hage. congruence.
      * intros _. rewrite get_ip_from_db_table, entries_others_same.
        split; [done|]. split; [done|].
        intros k Hk. by apply entries_others_ne.
    + exists true, t. split; [done|]. split; [|split; [done|done]].
      split; [|done]. intros _. exists r. split; [done|].
      by apply expired_false_iff.
  - exists false, t. split; [done|]. split; [|split; [done|]].
    + split; [done|]. by intros (r & [=] & _).
    + intros _. rewrite get_ip_from_db_table, Hh.
      split; [|done]. by destruct (entries (key_of d s) t).
Qed.

Lemma check_with_subdomain_witness :
  ∃ b t',
    check_if_resolution_valid 1360 "home.test" (Some "nas")
      (Some [Row "home.test" (Some "nas") "192.168.1.20" 1000;
             Row "home.test" None "192.168.1.10" 1000])
    = (Ok b, Some t')
    ∧ b = false
    ∧ t' = [Row "home.test" None "192.168.1.10" 1000].
Proof.
  destruct (check_with_subdomain 1360 "home.test" (Some "nas")
              [Row "home.test" (Some "nas") "192.168.1.20" 1000;
               Row "home.test" None "192.168.1.10" 1000])
    as (b & t' & Hc & _); [discriminate|].
  exists b, t'. split; [exact Hc|].
  vm_compute in Hc. injection Hc as <- <-. split; reflexivity.
Defined.

(** X4. When the validity check answers [True] it has changed nothing, the
    key has a row at most 300 seconds old, and [get_ip_from_db] returns the
    address of that row. *)
Theorem valid_means_fresh_and_readable (now : Z) (d : string)
    (s : option string) (db db' : database) :
  check_if_resolution_valid now d s db = (Ok true, db') →
  db' = db
  ∧ ∃ t r, db = Some t
           ∧ head (entries (key_of d s) t) = Some r
           ∧ now - timestamp r ≤ five_minutes
           ∧ get_ip_from_db d s db = (Ok (Some (ip r)), db).
Proof.
  destruct db as [t|]; [|discriminate].
  rewrite check_if_resolution_valid_table.
  destruct (head (entries (key_of d s) t)) as [r|] eqn:Hh; [|discriminate].
  destruct (expired now r) eqn:He.
  - destruct (truthy s); discriminate.
  - intros [= <-]. split; [done|]. exists t, r.
    split; [done|]. split; [done|]. split; [by apply expired_false_iff|].
    by rewrite get_ip_from_db_table, Hh.
Qed.

Lemma valid_means_fresh_and_readable_witness :
  let db := Some [Row "home.test" None "192.168.1.10" 1000] in
  get_ip_from_db "home.test" None db = (Ok (Some "192.168.1.10"), db).
Proof.
  intros db.
  destruct (valid_means_fresh_and_readable 1300 "home.test" None db db)
    as (_ & t & r & Ht & Hh & _ & Hg); [reflexivity|].
  injection Ht as <-. injection Hh as <-. exact Hg.
Defined.

(** X5. On a database that has its table the validity check raises in one
    situation only: the key has no subdomain and its row is more than 300
    seconds old.  The exception is [ProgrammingError] and the table is left
    as it was. *)
Theorem check_raises_iff (now : Z) (d : string) (s : option string)
    (t : table) (e : exn) (db' : database) :
  check_if_resolution_valid now d s (Some t) = (Raise e, db')
  ↔ (truthy s = None
     ∧ (∃ r, head (entries (d, None) t) = Some r
             ∧ five_minutes < now - timestamp r)
     ∧ e = ProgrammingError ∧ db' = Some t).
Proof.
  rewrite check_if_resolution_valid_table. unfold key_of. split.
  - destruct (head (entries (d, truthy s) t)) as [r|] eqn:Hh; [|done].
    destruct (expired now r) eqn:He; [|done].
    destruct (truthy s) eqn:Hs; [done|].
    intros [= <- <-]. split; [done|]. split; [|done].
    exists r. split; [done|]. by apply expired_true_iff.
  - intros (Hs & (r & Hh & Hage) & -> & ->). rewrite Hs, Hh.
    apply expired_true_iff in Hage. by rewrite Hage.
Qed.

(** ** Strings: suffixes, slices, stripping *)

Section StringFacts.

Implicit Types (s p suf : string).

Lemma length_append p s :
  String.length (p ++ s) = (String.length p + String.length s)%nat.
Proof. induction p as [|c p IH]; simpl; [done|]. by rewrite IH. Qed.

Lemma substring_all s : substring 0 (String.length s) s = s.
Proof. induction s as [|c s IH]; simpl; [done|]. by rewrite IH. Qed.

Lemma substring_prefix p s : substring 0 (String.length p) (p ++ s) = p.
Proof.
  induction p as [|c p IH]; simpl.
  - by destruct s.
  - by rewrite IH.
Qed.

Lemma substring_suffix p s :
  substring (String.length p) (String.length s) (p ++ s) = s.
Proof.
  induction p as [|c p IH]; simpl; [apply substring_all | exact IH].
Qed.

Lemma substring_cut n s :
  (n ≤ String.length s)%nat →
  s = (substring 0 n s ++ substring n (String.length s - n) s)%string.
Proof.
  revert n. induction s as [|c s IH]; intros [|n] Hn; simpl in *; try lia.
  - done.
  - by rewrite substring_all.
  - change (String c s
            = String c (substring 0 n s
                        ++ substring n (String.length s - n) s)%string).
    f_equal. apply IH. lia.
Qed.

(** [s.endswith(suf)] holds exactly when [s] is something followed by
    [suf], and the slice up to the suffix is that something. *)
Lemma endswith_iff s suf :
  PyStr.endswith s suf = true ↔ ∃ p, s = (p ++ suf)%string.
Proof.
  unfold PyStr.endswith. rewrite andb_true_iff, Nat.leb_le, String.eqb_eq.
  split.
  - intros [Hle Hsub].
    exists (substring 0 (String.length s - String.length suf) s).
    pose proof (substring_cut (String.length s - String.length suf) s)
      as Hcut.
    replace (String.length s - (String.length s - String.length suf))%nat
      with (String.length suf) in Hcut by lia.
    rewrite Hsub in Hcut. apply Hcut. lia.
  - intros [p ->]. rewrite length_append. split; [lia|].
    replace (String.length p + String.length suf - String.length suf)%nat
      with (String.length p) by lia.
    apply substring_suffix.
Qed.

Lemma slice_before_suffix p suf :
  PyStr.slice_to
    (String.length (p ++ suf) - String.length suf) (p ++ suf)%string = p.
Proof.
  unfold PyStr.slice_to. rewrite length_append.
  replace (String.length p + String.length suf - String.length suf)%nat
    with (String.length p) by lia.
  apply substring_prefix.
Qed.

Lemma append_inj_r p p' suf :
  (p ++ suf)%string = (p' ++ suf)%string → p = p'.
Proof.
  intros H. rewrite <- (slice_before_suffix p suf), H.
  apply slice_before_suffix.
Qed.

Lemma lstrip_head drop s c rest :
  PyStr.lstrip drop s = String c rest → drop c = false.
Proof.
  induction s as [|c' s IH]; simpl; [done|].
  destruct (drop c') eqn:Hd; [exact IH|]. by intros [= <- _].
Qed.

Lemma rstrip_head drop c s :
  drop c = false → ∃ rest, PyStr.rstrip drop (String c s) = String c rest.
Proof.
  intros Hd. simpl. destruct (PyStr.rstrip drop s); rewrite ?Hd; eauto.
Qed.

Lemma strip_head drop s c rest :
  PyStr.strip drop s = String c rest → drop c = false.
Proof.
  unfold PyStr.strip. destruct (PyStr.lstrip drop s) as [|c' s'] eqn:Hl.
  - done.
  - apply lstrip_head in Hl.
    destruct (rstrip_head drop c' s' Hl) as [rest' ->]. by intros [= <- _].
Qed.

(** A name stripped of dots does not start with a dot. *)
Lemma strip_dots_no_leading_dot s rest :
  PyStr.strip PyStr.is_dot s ≠ String "." rest.
Proof. intros H. apply strip_head in H. done. Qed.

End StringFacts.

(** ** What a match means *)

Section MatchMeaning.

Implicit Types (qname d sub target : string) (cd : config_data).

Lemma iteration_exact qname d cd d' target :
  iteration qname (d, cd) = Some (ExactDomain d' target) →
  d' = qname ∧ d = qname ∧ target = cfg_ip cd.
Proof.
  unfold iteration. destruct (decide (qname = d)) as [->|Hne].
  - by intros [= <- <-].
  - destruct (PyStr.endswith _ _); [|done].
    by destruct (cfg_subdomains cd !! _).
Qed.

Lemma iteration_subdomain qname d cd d' sub target :
  iteration qname (d, cd) = Some (Subdomain d' sub target) →
  d' = d ∧ qname = (sub ++ "." ++ d)%string
  ∧ cfg_subdomains cd !! sub = Some target.
Proof.
  unfold iteration. change ("." ++ d)%string with (String "." d).
  destruct (decide (qname = d)) as [->|Hne]; [done|].
  destruct (PyStr.endswith qname (String "." d)) eqn:Hend; [|done].
  apply endswith_iff in Hend as [p ->].
  replace (String.length (p ++ String "." d) - String.length d - 1)%nat
    with (String.length (p ++ String "." d) - String.length (String "." d))%nat
    by (simpl; lia).
  rewrite (slice_before_suffix p (String "." d)).
  destruct (cfg_subdomains cd !! p) as [tg|] eqn:Hl; [|done].
  by intros [= <- <- <-].
Qed.

Lemma iteration_none qname d cd :
  iteration qname (d, cd) = None
  ↔ qname ≠ d
    ∧ ∀ sub, qname = (sub ++ "." ++ d)%string →
             cfg_subdomains cd !! sub = None.
Proof.
  unfold iteration. change ("." ++ d)%string with (String "." d).
  destruct (decide (qname = d)) as [->|Hne].
  - split; [done | by intros [? _]].
  - destruct (PyStr.endswith qname (String "." d)) eqn:Hend.
    + apply endswith_iff in Hend as [p ->].
      replace (String.length (p ++ String "." d) - String.length d - 1)%nat
        with (String.length (p ++ String "." d)
              - String.length (String "." d))%nat
        by (simpl; lia).
      rewrite (slice_before_suffix p (String "." d)).
      destruct (cfg_subdomains cd !! p) as [tg|] eqn:Hl.
      * split; [done|]. intros [_ H]. specialize (H p eq_refl). congruence.
      * split; [|done]. intros _. split; [done|].
        intros sub Hsub.
        apply (append_inj_r p sub (String "." d)) in Hsub as <-. exact Hl.
    + split; [|done]. intros _. split; [done|].
      intros sub ->.
      assert (PyStr.endswith (sub ++ String "." d) (String "." d) = true)
        by (apply endswith_iff; by exists sub).
      congruence.
Qed.

End MatchMeaning.

Lemma loop_hit_meaning (qname : string) (items : list item) (h : hit) :
  special_domains_loop qname items = Some h →
  match h with
  | ExactDomain d target =>
      d = qname ∧ ∃ cd, (d, cd) ∈ items ∧ cfg_ip cd = target
  | Subdomain d sub target =>
      qname = (sub ++ "." ++ d)%string
      ∧ ∃ cd, (d, cd) ∈ items ∧ cfg_subdomains cd !! sub = Some target
  end.
Proof.
  induction items as [|[d cd] rest IH]; cbn [special_domains_loop]; [done|].
  destruct (iteration qname (d, cd)) as [h'|] eqn:Hit.
  - intros [= ->]. destruct h as [d' target|d' sub target].
    + apply iteration_exact in Hit as (-> & -> & ->).
      split; [done|]. exists cd. split; [apply list_elem_of_here | done].
    + apply iteration_subdomain in Hit as (-> & -> & Hl).
      split; [done|]. exists cd. split; [apply list_elem_of_here | done].
  - intros Hrest. specialize (IH Hrest).
    destruct h as [d' target|d' sub target];
      destruct IH as (Hq & cd' & Hin & Ht);
      (split; [done|]); exists cd';
      (split; [by apply list_elem_of_further | done]).
Qed.

(** X6. A match is sound.  An exact match names the query name itself, which
    is a configured domain, and carries that domain's target; a subdomain
    match names a configured domain [d] and a label [sub] with
    [qname = sub.d], and carries the target configured for [sub] under
    [d]. *)
Theorem special_domains_loop_sound (qname : string) (items : list item)
    (h : hit) :
  special_domains_loop qname items = Some h →
  match h with
  | ExactDomain d target =>
      d = qname ∧ ∃ cd, (d, cd) ∈ items ∧ cfg_ip cd = target
  | Subdomain d sub target =>
      qname = (sub ++ "." ++ d)%string
      ∧ ∃ cd, (d, cd) ∈ items ∧ cfg_subdomains cd !! sub = Some target
  end.
Proof. apply loop_hit_meaning. Qed.

Lemma special_domains_loop_sound_witness :
  "nas.home.test" = ("nas" ++ "." ++ "home.test")%string
  ∧ ∃ cd, ("home.test", cd)
          ∈ [("home.test", ConfigData "192.168.1.10" {["nas" := "192.168.1.20"]})]
          ∧ cfg_subdomains cd !! "nas" = Some "192.168.1.20".
Proof.
  apply (special_domains_loop_sound "nas.home.test"
           [("home.test", ConfigData "192.168.1.10" {["nas" := "192.168.1.20"]})]
           (Subdomain "home.test" "nas" "192.168.1.20")).
  vm_compute. reflexivity.
Defined.

(** X7. A match is complete: the loop falls through to the upstream path
    exactly when no configured domain equals the query name and no
    configured domain [d] lists a label [sub] with [qname = sub.d]. *)
Theorem special_domains_loop_none_iff (qname : string) (items : list item) :
  special_domains_loop qname items = None
  ↔ ∀ d cd, (d, cd) ∈ items →
      qname ≠ d
      ∧ ∀ sub, qname = (sub ++ "." ++ d)%string →
               cfg_subdomains cd !! sub = None.
Proof.
  induction items as [|[d cd] rest IH]; cbn [special_domains_loop].
  - split; [|done]. intros _ d cd Hin. by apply elem_of_nil in Hin.
  - destruct (iteration qname (d, cd)) as [h|] eqn:Hit.
    + split; [done|]. intros H.
      assert (Hnone : iteration qname (d, cd) = None)
        by (apply iteration_none, H, list_elem_of_here).
      congruence.
    + rewrite IH. apply iteration_none in Hit. split.
      * intros H d' cd' [[= -> ->]|Hin]%elem_of_cons; [done | by apply H].
      * intros H d' cd' Hin. by apply H, list_elem_of_further.
Qed.

(** ** Decomposition and recomposition of a name *)

Section Recomposition.

Lemma append_assoc (a b c : string) :
  ((a ++ b) ++ c)%string = (a ++ b ++ c)%string.
Proof.
  induction a as [|x a IH]; [done|].
  change (String x ((a ++ b) ++ c) = String x (a ++ b ++ c))%string.
  by rewrite IH.
Qed.

Lemma join_cons_cons sep p p' ps :
  PyStr.join sep (p :: p' :: ps) = (p ++ sep ++ PyStr.join sep (p' :: ps))%string.
Proof. reflexivity. Qed.

Lemma join_take_drop sep (parts : list string) (n : nat) :
  (0 < n < length parts)%nat →
  PyStr.join sep parts
  = (PyStr.join sep (take n parts) ++ sep
     ++ PyStr.join sep (drop n parts))%string.
Proof.
  revert n. induction parts as [|p ps IH]; intros n [Hn Hlen]; simpl in Hlen;
    [lia|].
  destruct n as [|n]; [lia|].
  destruct ps as [|p' ps]; simpl in Hlen; [lia|].
  destruct n as [|n].
  - reflexivity.
  - rewrite join_cons_cons.
    rewrite (IH (S n)) by (simpl; lia).
    change (take (S (S n)) (p :: p' :: ps)) with (p :: p' :: take n ps).
    change (drop (S (S n)) (p :: p' :: ps)) with (drop (S n) (p' :: ps)).
    change (take (S n) (p' :: ps)) with (p' :: take n ps).
    rewrite join_cons_cons. by rewrite !append_assoc.
Qed.

End Recomposition.

Lemma separate_parts (qname : string) :
  match separate_domain_and_subdomain qname with
  | (Some sub, d) =>
      qname = (sub ++ "." ++ d)%string ∧ length (PyStr.split "." d) = 2%nat
  | (None, d) =>
      d = qname ∧ (length (PyStr.split "." qname) ≤ 2)%nat
  end.
Proof.
  unfold separate_domain_and_subdomain, PyStr.all_but_last_two, PyStr.last_two.
  pose proof (split_labels "." qname) as Hlabels.
  pose proof (join_split "." qname) as Hjoin.
  set (parts := PyStr.split "." qname) in *.
  destruct (2 <? length parts)%nat eqn:Hlen.
  - apply Nat.ltb_lt in Hlen. split.
    + rewrite <- Hjoin at 1.
      apply (join_take_drop "." parts (length parts - 2)). lia.
    + rewrite (split_join "." (drop (length parts - 2) parts)).
      * rewrite length_drop. lia.
      * intros Hnil. apply (f_equal length) in Hnil.
        rewrite length_drop in Hnil. simpl in Hnil. lia.
      * by apply Forall_drop.
  - apply Nat.ltb_ge in Hlen. done.
Qed.

(** X8. The decomposition loses nothing.  When a subdomain is returned, the
    query name is the subdomain, a dot, and the domain, and the domain has
    exactly two labels; when none is returned, the domain is the query name
    and has at most two labels. *)
Theorem separate_domain_and_subdomain_recomposes (qname : string) :
  match separate_domain_and_subdomain qname with
  | (Some sub, d) =>
      qname = (sub ++ "." ++ d)%string ∧ length (PyStr.split "." d) = 2%nat
  | (None, d) =>
      d = qname ∧ (length (PyStr.split "." qname) ≤ 2)%nat
  end.
Proof. apply separate_parts. Qed.

(** ** Outcomes of [create_dns_entry] *)

Section EntryOutcomes.

Context (E : collaborators).

Lemma others_idem k t : others k (others k t) = others k t.
Proof. apply others_no_entries, entries_others_same. Qed.

Lemma create_dns_record_cases name ttl a :
  create_dns_record E name ttl a
  = match is_valid_ip E a with
    | Ok (Some ty) => Ok (RRset name (rdtype_of ty) ttl a)
    | Ok None => Raise invalid_address
    | Raise e => Raise e
    end.
Proof.
  unfold create_dns_record. by destruct (is_valid_ip E a) as [[[]|]|].
Qed.

Lemma respond_with_cases now a q d s t :
  respond_with E now a q d s (Some t)
  = match is_valid_ip E a with
    | Ok (Some ty) =>
        (Ok (answer q (full_domain d s) ty a),
         Some (others (key_of d s) t ++ [Row d (truthy s) a now]))
    | Ok None => (Raise invalid_address, Some t)
    | Raise e => (Raise e, Some t)
    end.
Proof.
  rewrite respond_with_table, create_dns_record_cases.
  by destruct (is_valid_ip E a) as [[|]|].
Qed.

Lemma resolve_and_respond_cases now a0 q d s t :
  resolve_and_respond E now a0 q d s (Some t)
  = match get_ip_or_domain E a0 with
    | Ok a => respond_with E now a q d s (Some t)
    | Raise e => (Raise e, Some t)
    end.
Proof.
  unfold resolve_and_respond, bind, lift.
  by destruct (get_ip_or_domain E a0).
Qed.

(** A response out of [create_dns_entry]: one record for the full name,
    holding a valid address that is the given one or what the resolver made
    of it, and that address cached under the key with the current time. *)
Lemma create_dns_entry_ok now a0 q d s db m db' :
  create_dns_entry E now a0 q d s db = (Ok m, db') →
  ∃ t a ty,
    db = Some t
    ∧ (a = a0 ∨ get_ip_or_domain E a0 = Ok a)
    ∧ is_valid_ip E a = Ok (Some ty)
    ∧ m = answer q (full_domain d s) ty a
    ∧ db' = Some (others (key_of d s) t ++ [Row d (truthy s) a now]).
Proof.
  destruct db as [t|]; [|discriminate].
  rewrite create_dns_entry_table.
  assert (Hresp : ∀ t0 a,
    others (key_of d s) t0 = others (key_of d s) t →
    (a = a0 ∨ get_ip_or_domain E a0 = Ok a) →
    respond_with E now a q d s (Some t0) = (Ok m, db') →
    ∃ t1 a1 ty,
      Some t = Some t1
      ∧ (a1 = a0 ∨ get_ip_or_domain E a0 = Ok a1)
      ∧ is_valid_ip E a1 = Ok (Some ty)
      ∧ m = answer q (full_domain d s) ty a1
      ∧ db' = Some (others (key_of d s) t1 ++ [Row d (truthy s) a1 now])).
  { intros t0 a Ht0 Ha. rewrite respond_with_cases.
    destruct (is_valid_ip E a) as [[ty|]|e] eqn:Hv; [|discriminate..].
    intros [= <- <-]. exists t, a, ty. by rewrite Ht0. }
  assert (Hres : ∀ t0,
    others (key_of d s) t0 = others (key_of d s) t →
    resolve_and_respond E now a0 q d s (Some t0) = (Ok m, db') →
    ∃ t1 a1 ty,
      Some t = Some t1
      ∧ (a1 = a0 ∨ get_ip_or_domain E a0 = Ok a1)
      ∧ is_valid_ip E a1 = Ok (Some ty)
      ∧ m = answer q (full_domain d s) ty a1
      ∧ db' = Some (others (key_of d s) t1 ++ [Row d (truthy s) a1 now])).
  { intros t0 Ht0. rewrite resolve_and_respond_cases.
    destruct (get_ip_or_domain E a0) as [a|e] eqn:Hg; [|discriminate].
    apply Hresp; [done | by right]. }
  destruct (head (entries (key_of d s) t)) as [r|]; [|by apply Hres].
  destruct (expired now r).
  - destruct (truthy s); [|discriminate]. apply Hres, others_idem.
  - destruct (decide (ip r = a0)) as [Heq|]; [|by apply Hres].
    apply Hresp; [done | by left].
Qed.

End EntryOutcomes.

(** ** Matched queries *)

Section Matched.

Context (E : collaborators).

Lemma handle_matched now q cfg db h :
  special_domains_loop (PyStr.strip PyStr.is_dot (question_name q))
    (special_domains cfg) = Some h →
  handle_dns_query E now q cfg db
  = if PyStr.endswith (hit_target h) ".local" then
      bind (resolve_mdns E now (hit_target h) q (hit_domain h)
              (hit_subdomain h)) to_wire db
    else
      bind (create_dns_entry E now (hit_target h) q (hit_domain h)
              (hit_subdomain h)) (λ response, to_wire (Some response)) db.
Proof.
  intros Hh. unfold handle_dns_query. rewrite Hh.
  destruct h as [d target|d sub target];
    cbn [hit_target hit_domain hit_subdomain];
    by destruct (PyStr.endswith target ".local").
Qed.

(** The hit of a name without leading dot: its subdomain, if any, is not
    empty, and subdomain and domain make up the name. *)
Lemma hit_named qname items h :
  (∀ rest, qname ≠ String "." rest) →
  special_domains_loop qname items = Some h →
  truthy (hit_subdomain h) = hit_subdomain h
  ∧ full_domain (hit_domain h) (hit_subdomain h) = qname.
Proof.
  intros Hdot Hh. apply loop_hit_meaning in Hh.
  destruct h as [d target|d sub target]; simpl.
  - destruct Hh as [-> _]. done.
  - destruct Hh as [-> _]. unfold full_domain. simpl.
    destruct (decide (sub = "")) as [->|]; [|done].
    by specialize (Hdot d).
Qed.

Lemma resolve_mdns_some now host q d s db m db' :
  resolve_mdns E now host q d s db = (Ok (Some m), db') →
  ∃ stdout a ty,
    avahi_resolve E host = Ok (0, stdout)
    ∧ index1 (PyStr.split "009" (PyStr.strip PyStr.isspace stdout)) = Ok a
    ∧ is_valid_ip E a = Ok (Some ty)
    ∧ create_dns_entry E now a q d s db = (Ok m, db').
Proof.
  unfold resolve_mdns, try_except, set_rcode. simpl snd.
  unfold bind at 1. unfold lift at 1.
  destruct (avahi_resolve E host) as [[returncode stdout]|e]; [|done].
  destruct (returncode =? 0) eqn:Hrc; [|done].
  apply Z.eqb_eq in Hrc as ->.
  unfold bind at 1. unfold lift at 1.
  destruct (index1 _) as [a|e] eqn:Hi; [|done].
  unfold bind at 1. unfold lift at 1.
  destruct (is_valid_ip E a) as [[ty|]|e] eqn:Hv; [|done..].
  unfold bind.
  destruct (create_dns_entry E now a q d s db) as [[m'|e] db1] eqn:Hc; [|done].
  intros [= <- <-]. by exists stdout, a, ty.
Qed.

Lemma handle_matched_ok now q cfg db h m db' :
  special_domains_loop (PyStr.strip PyStr.is_dot (question_name q))
    (special_domains cfg) = Some h →
  handle_dns_query E now q cfg db = (Ok m, db') →
  ∃ a0, create_dns_entry E now a0 q (hit_domain h) (hit_subdomain h) db
        = (Ok m, db').
Proof.
  intros Hh. rewrite (handle_matched _ _ _ _ _ Hh).
  destruct (PyStr.endswith (hit_target h) ".local"); unfold bind.
  - destruct (resolve_mdns E now _ q _ _ db) as [[[m'|]|e] db1] eqn:Hm;
      [|done..].
    intros [= <- <-].
    apply resolve_mdns_some in Hm as (_ & a & _ & _ & _ & _ & Hc). eauto.
  - destruct (create_dns_entry E now _ q _ _ db) as [[m'|e] db1] eqn:Hc;
      [|done].
    intros [= <- <-]. eauto.
Qed.

End Matched.

(** X9. Whatever answer a matched query gets is a success response with
    exactly one record: its name is the query name, its TTL 3600, its
    address a syntactically valid literal of the record's family.  That
    address is afterwards the cache's only row for the matched key,
    stamped with the current time. *)
Theorem matched_answer_well_formed (E : collaborators) (now : Z) (q : query)
    (cfg : config) (db db' : database) (h : hit) (m : message) :
  special_domains_loop (PyStr.strip PyStr.is_dot (question_name q))
    (special_domains cfg) = Some h →
  handle_dns_query E now q cfg db = (Ok m, db') →
  ∃ a ty t',
    is_valid_ip E a = Ok (Some ty)
    ∧ m = answer q (PyStr.strip PyStr.is_dot (question_name q)) ty a
    ∧ db' = Some t'
    ∧ entries (hit_domain h, hit_subdomain h) t'
      = [Row (hit_domain h) (hit_subdomain h) a now].
Proof.
  intros Hh Hok.
  destruct (hit_named _ _ _ (strip_dots_no_leading_dot _) Hh) as [Hs Hname].
  destruct (handle_matched_ok E _ _ _ _ _ _ _ Hh Hok) as [a0 Hc].
  apply create_dns_entry_ok in Hc as (t & a & ty & -> & _ & Hv & -> & ->).
  exists a, ty. eexists. split; [done|]. split; [by rewrite Hname|].
  split; [done|]. unfold key_of. rewrite Hs.
  apply (entries_after_store (hit_domain h, hit_subdomain h)).
Qed.

Lemma matched_answer_well_formed_witness :
  ∃ a ty t',
    is_valid_ip World.offline a = Ok (Some ty)
    ∧ Message (Query 7 ["home"; "test"; ""]) NOERROR
        [RRset "home.test" RR_A 3600 "192.168.1.10"]
      = answer (Query 7 ["home"; "test"; ""]) "home.test" ty a
    ∧ Some [Row "home.test" None "192.168.1.10" 100] = Some t'
    ∧ entries ("home.test", None) t' = [Row "home.test" None a 100].
Proof.
  apply (matched_answer_well_formed World.offline 100 (Query 7 ["home"; "test"; ""])
           home_test_config (Some [])
           (Some [Row "home.test" None "192.168.1.10" 100])
           (ExactDomain "home.test" "192.168.1.10")); reflexivity.
Defined.

Section LiteralTargets.

Context (E : collaborators).

(** [create_dns_entry] on a literal: unless the validity check raises, the
    literal is what is served and cached, whatever the cache held. *)
Lemma create_dns_entry_literal now a q d s t ty :
  is_valid_ip E a = Ok (Some ty) →
  (truthy s = None →
   ∀ r, head (entries (key_of d s) t) = Some r → expired now r = false) →
  create_dns_entry E now a q d s (Some t)
  = (Ok (answer q (full_domain d s) ty a),
     Some (others (key_of d s) t ++ [Row d (truthy s) a now])).
Proof.
  intros Hv Hfresh. rewrite create_dns_entry_table.
  assert (Hres : ∀ t0,
    others (key_of d s) t0 = others (key_of d s) t →
    resolve_and_respond E now a q d s (Some t0)
    = (Ok (answer q (full_domain d s) ty a),
       Some (others (key_of d s) t ++ [Row d (truthy s) a now]))).
  { intros t0 Ht0. unfold resolve_and_respond, bind, lift.
    rewrite (get_ip_or_domain_literal E a ty Hv).
    by rewrite respond_with_cases, Hv, Ht0. }
  destruct (head (entries (key_of d s) t)) as [r|] eqn:Hh; [|by apply Hres].
  destruct (expired now r) eqn:He.
  - destruct (truthy s) eqn:Hs; [apply Hres, others_idem|].
    specialize (Hfresh eq_refl r eq_refl). congruence.
  - destruct (decide (ip r = a)) as [->|]; [|by apply Hres].
    by rewrite respond_with_cases, Hv.
Qed.

End LiteralTargets.

(** X10. A matched query whose configured target is an address literal (and
    not a local-network name) is answered with that literal, whatever the
    cache holds for the key, and the literal is cached with the current
    time.  The one exception is the state in which the validity check
    raises: an exact-domain match whose cached row is more than 300 seconds
    old. *)
Theorem literal_target_served (E : collaborators) (now : Z) (q : query)
    (cfg : config) (t : table) (h : hit) (ty : ip_type) :
  special_domains_loop (PyStr.strip PyStr.is_dot (question_name q))
    (special_domains cfg) = Some h →
  PyStr.endswith (hit_target h) ".local" = false →
  is_valid_ip E (hit_target h) = Ok (Some ty) →
  (hit_subdomain h = None →
   ∀ r, head (entries (hit_domain h, None) t) = Some r →
        now - timestamp r ≤ five_minutes) →
  handle_dns_query E now q cfg (Some t)
  = (Ok (answer q (PyStr.strip PyStr.is_dot (question_name q)) ty
           (hit_target h)),
     Some (others (hit_domain h, hit_subdomain h) t
           ++ [Row (hit_domain h) (hit_subdomain h) (hit_target h) now])).
Proof.
  intros Hh Hlocal Hv Hfresh.
  destruct (hit_named _ _ _ (strip_dots_no_leading_dot _) Hh) as [Hs Hname].
  rewrite (handle_matched E _ _ _ _ _ Hh), Hlocal. unfold bind.
  rewrite (create_dns_entry_literal E now _ q _ _ t ty Hv).
  - unfold key_of. by rewrite Hs, Hname.
  - unfold key_of. rewrite Hs. intros Hnone r Hr.
    apply expired_false_iff. rewrite Hnone in Hr. by apply Hfresh.
Qed.

Lemma literal_target_served_witness :
  handle_dns_query World.offline 1000 (Query 7 ["nas"; "home"; "test"; ""])
    (Config [("home.test",
              ConfigData "192.168.1.10" {["nas" := "192.168.1.20"]})])
    (Some [Row "home.test" (Some "nas") "192.168.1.99" 10])
  = (Ok (answer (Query 7 ["nas"; "home"; "test"; ""]) "nas.home.test" IPv4
           "192.168.1.20"),
     Some [Row "home.test" (Some "nas") "192.168.1.20" 1000]).
Proof.
  apply (literal_target_served World.offline 1000 (Query 7 ["nas"; "home"; "test"; ""])
           (Config [("home.test",
                     ConfigData "192.168.1.10" {["nas" := "192.168.1.20"]})])
           [Row "home.test" (Some "nas") "192.168.1.99" 10]
           (Subdomain "home.test" "nas" "192.168.1.20") IPv4);
    [by vm_compute | reflexivity | reflexivity | discriminate].
Defined.

(** X12. [resolve_mdns] never raises and never returns a server-failure
    response: it returns [None], or a success response with one record for
    the full name. *)
Theorem resolve_mdns_none_or_answer (E : collaborators) (now : Z)
    (host : string) (q : query) (d : string) (s : option string)
    (db : database) :
  (∃ db', resolve_mdns E now host q d s db = (Ok None, db'))
  ∨ (∃ a ty db',
       is_valid_ip E a = Ok (Some ty)
       ∧ resolve_mdns E now host q d s db
         = (Ok (Some (answer q (full_domain d s) ty a)), db')).
Proof.
  destruct (resolve_mdns E now host q d s db) as [r db'] eqn:Hm.
  destruct (resolve_mdns_outcome E _ _ _ _ _ _ _ _ Hm) as [->|[rr ->]].
  - left. by exists db'.
  - right. apply resolve_mdns_some in Hm as (_ & a0 & _ & _ & _ & _ & Hc).
    apply create_dns_entry_ok in Hc as (t & a & ty & _ & _ & Hv & Hans & _).
    exists a, ty, db'. split; [done|]. by rewrite Hans.
Qed.

(** X13. When the local-network resolution exits with status 0 and the
    second tab-separated field of its output is a valid address, that
    address is what [resolve_mdns] answers with and caches, whatever the
    cache held, unless the validity check raises (no subdomain, cached row
    more than 300 seconds old). *)
Theorem resolve_mdns_success (E : collaborators) (now : Z) (host : string)
    (q : query) (d : string) (s : option string) (t : table)
    (stdout a : string) (ty : ip_type) :
  avahi_resolve E host = Ok (0, stdout) →
  index1 (PyStr.split "009" (PyStr.strip PyStr.isspace stdout)) = Ok a →
  is_valid_ip E a = Ok (Some ty) →
  (truthy s = None →
   ∀ r, head (entries (key_of d s) t) = Some r →
        now - timestamp r ≤ five_minutes) →
  resolve_mdns E now host q d s (Some t)
  = (Ok (Some (answer q (full_domain d s) ty a)),
     Some (others (key_of d s) t ++ [Row d (truthy s) a now])).
Proof.
  intros Hav Hi Hv Hfresh.
  unfold resolve_mdns, try_except.
  unfold bind at 1. unfold lift at 1. rewrite Hav. simpl.
  unfold bind at 1. unfold lift at 1. rewrite Hi.
  unfold bind at 1. unfold lift at 1. rewrite Hv.
  unfold bind. rewrite (create_dns_entry_literal E now a q d s t ty Hv);
    [done|].
  intros Hnone r Hr. apply expired_false_iff. by apply Hfresh.
Qed.

Lemma resolve_mdns_success_witness :
  resolve_mdns (World.make [] [("printer.local", "10.0.0.9")] false) 100
    "printer.local" (Query 7 ["printer"; "test"; ""]) "printer.test" None (Some [])
  = (Ok (Some (answer (Query 7 ["printer"; "test"; ""]) "printer.test" IPv4
                 "10.0.0.9")),
     Some [Row "printer.test" None "10.0.0.9" 100]).
Proof.
  apply (resolve_mdns_success
           (World.make [] [("printer.local", "10.0.0.9")] false) 100
           "printer.local" (Query 7 ["printer"; "test"; ""]) "printer.test" None []
           (String.append "printer.local"
              (String "009" (String.append "10.0.0.9" (String "010" ""))))
           "10.0.0.9" IPv4);
    [reflexivity | reflexivity | reflexivity | discriminate].
Defined.

(** ** Query names hold no NUL character *)

Section NameText.

Lemma contains_append c (a b : string) :
  PyStr.contains c (a ++ b) = PyStr.contains c a || PyStr.contains c b.
Proof.
  induction a as [|x a IH]; [done|].
  change (PyStr.contains c (String x a ++ b))
    with (Ascii.eqb x c || PyStr.contains c (a ++ b)).
  rewrite IH. simpl. by rewrite orb_assoc.
Qed.

Lemma escapify_char_no_nul c :
  PyStr.contains "000" (DnsName.escapify_char c) = false.
Proof. destruct c as [[] [] [] [] [] [] [] []]; reflexivity. Qed.

Lemma escapify_no_nul label :
  PyStr.contains "000" (DnsName.escapify label) = false.
Proof.
  induction label as [|c label IH]; [done|].
  cbn [DnsName.escapify]. by rewrite contains_append, escapify_char_no_nul, IH.
Qed.

Lemma join_no_nul (parts : list string) :
  Forall (λ p, PyStr.contains "000" p = false) parts →
  PyStr.contains "000" (PyStr.join "." parts) = false.
Proof.
  induction 1 as [|p ps Hp Hps IH]; [done|].
  destruct ps as [|p' ps]; [done|].
  rewrite join_cons_cons, !contains_append, Hp, IH. done.
Qed.

Lemma to_text_no_nul labels :
  PyStr.contains "000" (DnsName.to_text labels) = false.
Proof.
  assert (Hjoin : PyStr.contains "000"
                    (PyStr.join "." (map DnsName.escapify labels)) = false).
  { apply join_no_nul, Forall_forall. intros p Hp.
    apply list_elem_of_fmap in Hp as [l [-> _]]. apply escapify_no_nul. }
  unfold DnsName.to_text. destruct labels as [|[|c l] [|l' ls]]; done.
Qed.

Lemma lstrip_no_nul drop s :
  PyStr.contains "000" s = false →
  PyStr.contains "000" (PyStr.lstrip drop s) = false.
Proof.
  induction s as [|c s IH]; [done|]. simpl.
  intros [Hc Hs]%orb_false_iff.
  destruct (drop c); [by apply IH|]. simpl. by rewrite Hc, Hs.
Qed.

Lemma rstrip_no_nul drop s :
  PyStr.contains "000" s = false →
  PyStr.contains "000" (PyStr.rstrip drop s) = false.
Proof.
  induction s as [|c s IH]; [done|]. simpl.
  intros [Hc Hs]%orb_false_iff. specialize (IH Hs).
  destruct (PyStr.rstrip drop s) as [|c' kept].
  - destruct (drop c); [done|]. simpl. by rewrite Hc.
  - simpl in IH |- *. by rewrite Hc.
Qed.

(** The name the handler works on comes out of [to_text], which prints
    every byte outside the printable range as an escape. *)
Lemma qname_no_nul (q : query) :
  PyStr.contains "000" (PyStr.strip PyStr.is_dot (question_name q)) = false.
Proof.
  unfold PyStr.strip, question_name.
  apply rstrip_no_nul, lstrip_no_nul, to_text_no_nul.
Qed.

End NameText.

(** ** Unmatched queries *)

Section Unmatched.

Context (E : collaborators).

Lemma handle_unmatched now q cfg db :
  special_domains_loop (PyStr.strip PyStr.is_dot (question_name q))
    (special_domains cfg) = None →
  handle_dns_query E now q cfg db
  = match resolve_dns_entry E now
            (PyStr.strip PyStr.is_dot (question_name q)) q db with
    | (Ok m, db') => (Ok m, db')
    | (Raise _, db') => (Ok (servfail q), db')
    end.
Proof.
  intros Hh. unfold handle_dns_query. rewrite Hh.
  unfold bind, try_except.
  by destruct (resolve_dns_entry E now _ q db) as [[m|e] db'].
Qed.

Lemma others_app_own k a now t :
  others k (t ++ [Row k.1 k.2 a now]) = others k t.
Proof.
  unfold others. rewrite (filter_app (λ r, row_key r ≠ k)).
  rewrite (filter_cons_False (λ r, row_key r ≠ k))
    by (intros H; apply H; by destruct k).
  apply app_nil_r.
Qed.

Lemma resolve_dns_entry_table now qname q sub d t :
  separate_domain_and_subdomain qname = (sub, d) →
  resolve_dns_entry E now qname q (Some t)
  = match head (entries (key_of d sub) t) with
    | Some r =>
        if expired now r then
          match truthy sub with
          | Some _ => forwarded E now qname q d sub (others (key_of d sub) t)
          | None => (Raise ProgrammingError, Some t)
          end
        else
          match is_valid_ip E (ip r) with
          | Ok (Some ty) =>
              (Ok (answer q (full_domain d sub) ty (ip r)),
               Some (others (key_of d sub) t ++ [Row d (truthy sub) (ip r) now]))
          | Ok None => (Raise invalid_address, Some t)
          | Raise e => (Raise e, Some t)
          end
    | None => forwarded E now qname q d sub t
    end.
Proof.
  intros Hsep. unfold resolve_dns_entry. rewrite Hsep.
  assert (Hfwd : ∀ t0,
    (let! ip := lift (get_ip_or_domain E qname) in
     let! response := lift (dns_query_udp E q) in
     do! start_store_thread now d sub ip in ret response) (Some t0)
    = forwarded E now qname q d sub t0).
  { intros t0. unfold forwarded, bind, lift, start_store_thread, try_except, ret.
    destruct (get_ip_or_domain E qname) as [a|e]; [|done].
    destruct (dns_query_udp E q) as [m|e]; [|done].
    by rewrite store_ip_in_db_table. }
  unfold bind at 1. rewrite check_if_resolution_valid_table.
  destruct (head (entries (key_of d sub) t)) as [r|] eqn:Hh; [|apply Hfwd].
  destruct (expired now r) eqn:He.
  - destruct (truthy sub); [apply Hfwd | done].
  - unfold bind at 1. rewrite get_ip_from_db_table, Hh. simpl.
    unfold bind at 1.
    rewrite (create_dns_entry_cached_same E now (ip r) q d sub t r Hh He eq_refl).
    rewrite respond_with_cases.
    destruct (is_valid_ip E (ip r)) as [[ty|]|e]; [|done..].
    unfold bind, start_store_thread, try_except, ret.
    rewrite store_ip_in_db_table.
    by rewrite (others_app_own (key_of d sub)), others_idem.
Qed.

(** What [separate_domain_and_subdomain] makes of a name without leading
    dot: a subdomain that is not empty, and parts that make up the name. *)
Lemma separate_named qname sub d :
  (∀ rest, qname ≠ String "." rest) →
  separate_domain_and_subdomain qname = (sub, d) →
  truthy sub = sub ∧ full_domain d sub = qname.
Proof.
  intros Hdot Hsep. pose proof (separate_parts qname) as Hparts.
  rewrite Hsep in Hparts. destruct sub as [s|]; simpl.
  - destruct Hparts as [-> _]. unfold full_domain. simpl.
    destruct (decide (s = "")) as [->|]; [|done]. by specialize (Hdot d).
  - by destruct Hparts as [-> _].
Qed.

End Unmatched.

Section UnmatchedCases.

Context (E : collaborators).

Lemma head_None_entries k t : head (entries k t) = None → entries k t = [].
Proof. by destruct (entries k t). Qed.

(** The state of the key in which the unmatched path forwards: no row, or
    a row with a subdomain that has expired. *)
Lemma forwarding_state now qname q sub d t :
  separate_domain_and_subdomain qname = (sub, d) →
  truthy sub = sub →
  (∀ r, head (entries (d, sub) t) = Some r →
        sub ≠ None ∧ five_minutes < now - timestamp r) →
  resolve_dns_entry E now qname q (Some t)
  = forwarded E now qname q d sub (others (d, sub) t).
Proof.
  intros Hsep Hs Hstate. rewrite (resolve_dns_entry_table E _ _ _ _ _ _ Hsep).
  unfold key_of. rewrite Hs.
  destruct (head (entries (d, sub) t)) as [r|] eqn:Hh.
  - destruct (Hstate r eq_refl) as [Hsub Hage].
    apply expired_true_iff in Hage. rewrite Hage.
    by destruct sub.
  - by rewrite (others_no_entries _ _ (head_None_entries _ _ Hh)).
Qed.

End UnmatchedCases.

(** X14. An unmatched query whose key (the name's last two labels and what
    precedes them) has no row in the cache, or an expired row with a
    subdomain, is forwarded: the upstream response is returned as it is,
    and what [get_ip_or_domain] makes of the name, be it an address or the
    name itself, becomes the key's only row. *)
Theorem unmatched_query_forwarded (E : collaborators) (now : Z) (q : query)
    (cfg : config) (t : table) (sub : option string) (d : string)
    (m : message) :
  special_domains_loop (PyStr.strip PyStr.is_dot (question_name q))
    (special_domains cfg) = None →
  separate_domain_and_subdomain (PyStr.strip PyStr.is_dot (question_name q))
  = (sub, d) →
  (∀ r, head (entries (d, sub) t) = Some r →
        sub ≠ None ∧ five_minutes < now - timestamp r) →
  dns_query_udp E q = Ok m →
  ∃ a, get_ip_or_domain E (PyStr.strip PyStr.is_dot (question_name q)) = Ok a
       ∧ handle_dns_query E now q cfg (Some t)
         = (Ok m, Some (others (d, sub) t ++ [Row d sub a now])).
Proof.
  intros Hh Hsep Hstate Hup.
  destruct (separate_named _ _ _ (strip_dots_no_leading_dot _) Hsep) as [Hs _].
  rewrite (handle_unmatched E _ _ _ _ Hh).
  rewrite (forwarding_state E _ _ _ _ _ _ Hsep Hs Hstate).
  unfold forwarded.
  destruct (get_ip_or_domain_total E _ (qname_no_nul q)) as [a Ha].
  exists a. split; [done|]. rewrite Ha, Hup. unfold key_of.
  by rewrite Hs, others_idem.
Qed.

Lemma unmatched_query_forwarded_witness :
  ∃ a, get_ip_or_domain (World.make [("example.org", "93.184.216.34")] [] true)
         "example.org" = Ok a
       ∧ handle_dns_query
           (World.make [("example.org", "93.184.216.34")] [] true) 100
           (Query 7 ["example"; "org"; ""]) home_test_config (Some [])
         = (Ok (make_response (Query 7 ["example"; "org"; ""])),
            Some (others ("example.org", None) []
                  ++ [Row "example.org" None a 100])).
Proof.
  apply (unmatched_query_forwarded
           (World.make [("example.org", "93.184.216.34")] [] true) 100
           (Query 7 ["example"; "org"; ""]) home_test_config [] None "example.org"
           (make_response (Query 7 ["example"; "org"; ""])));
    [reflexivity | reflexivity | discriminate | reflexivity].
Defined.

(** X15. In the same state of the cache, an exception from the upstream
    query is answered with a server failure; nothing is written to the
    cache (an expired row of the key has been removed by the check). *)
Theorem unmatched_query_upstream_failure (E : collaborators) (now : Z)
    (q : query) (cfg : config) (t : table) (sub : option string)
    (d : string) (e : exn) :
  special_domains_loop (PyStr.strip PyStr.is_dot (question_name q))
    (special_domains cfg) = None →
  separate_domain_and_subdomain (PyStr.strip PyStr.is_dot (question_name q))
  = (sub, d) →
  (∀ r, head (entries (d, sub) t) = Some r →
        sub ≠ None ∧ five_minutes < now - timestamp r) →
  dns_query_udp E q = Raise e →
  handle_dns_query E now q cfg (Some t)
  = (Ok (servfail q), Some (others (d, sub) t)).
Proof.
  intros Hh Hsep Hstate Hup.
  destruct (separate_named _ _ _ (strip_dots_no_leading_dot _) Hsep) as [Hs _].
  rewrite (handle_unmatched E _ _ _ _ Hh).
  rewrite (forwarding_state E _ _ _ _ _ _ Hsep Hs Hstate).
  unfold forwarded.
  destruct (get_ip_or_domain_total E _ (qname_no_nul q)) as [a Ha].
  by rewrite Ha, Hup.
Qed.

Lemma unmatched_query_upstream_failure_witness :
  handle_dns_query World.offline 100 (Query 7 ["example"; "org"; ""]) home_test_config
    (Some [])
  = (Ok (servfail (Query 7 ["example"; "org"; ""])), Some []).
Proof.
  apply (unmatched_query_upstream_failure World.offline 100
           (Query 7 ["example"; "org"; ""]) home_test_config [] None "example.org"
           (DNSException LifetimeTimeout));
    [reflexivity | reflexivity | discriminate | reflexivity].
Defined.

(** X16. An unmatched query whose key has a row at most 300 seconds old
    holding a valid address is answered from the cache: one record for the
    query name with that address and TTL 3600.  The upstream resolver plays
    no part, and the row is written again with the current time, so an
    entry that keeps being asked for does not expire. *)
Theorem unmatched_query_from_cache (E : collaborators) (now : Z) (q : query)
    (cfg : config) (t : table) (sub : option string) (d : string) (r : row)
    (ty : ip_type) :
  special_domains_loop (PyStr.strip PyStr.is_dot (question_name q))
    (special_domains cfg) = None →
  separate_domain_and_subdomain (PyStr.strip PyStr.is_dot (question_name q))
  = (sub, d) →
  head (entries (d, sub) t) = Some r →
  now - timestamp r ≤ five_minutes →
  is_valid_ip E (ip r) = Ok (Some ty) →
  handle_dns_query E now q cfg (Some t)
  = (Ok (answer q (PyStr.strip PyStr.is_dot (question_name q)) ty (ip r)),
     Some (others (d, sub) t ++ [Row d sub (ip r) now])).
Proof.
  intros Hh Hsep Hr Hage Hv.
  destruct (separate_named _ _ _ (strip_dots_no_leading_dot _) Hsep)
    as [Hs Hname].
  rewrite (handle_unmatched E _ _ _ _ Hh).
  rewrite (resolve_dns_entry_table E _ _ _ _ _ _ Hsep).
  unfold key_of. rewrite Hs, Hr.
  apply expired_false_iff in Hage. by rewrite Hage, Hv, Hname.
Qed.

Lemma unmatched_query_from_cache_witness :
  handle_dns_query World.offline 200 (Query 8 ["www"; "example"; "org"; ""])
    home_test_config
    (Some [Row "example.org" (Some "www") "93.184.216.34" 100])
  = (Ok (answer (Query 8 ["www"; "example"; "org"; ""]) "www.example.org" IPv4
           "93.184.216.34"),
     Some [Row "example.org" (Some "www") "93.184.216.34" 200]).
Proof.
  apply (unmatched_query_from_cache World.offline 200
           (Query 8 ["www"; "example"; "org"; ""]) home_test_config
           [Row "example.org" (Some "www") "93.184.216.34" 100]
           (Some "www") "example.org"
           (Row "example.org" (Some "www") "93.184.216.34" 100) IPv4);
    [reflexivity | reflexivity | reflexivity | by vm_compute | reflexivity].
Defined.

(** X17. An unmatched query whose key has a row at most 300 seconds old
    holding something that is no valid address (the name itself, cached
    after a lookup that failed) is answered with a server failure; the
    query is not forwarded and the cache is left as it is. *)
Theorem unmatched_query_cached_name (E : collaborators) (now : Z) (q : query)
    (cfg : config) (t : table) (sub : option string) (d : string) (r : row) :
  special_domains_loop (PyStr.strip PyStr.is_dot (question_name q))
    (special_domains cfg) = None →
  separate_domain_and_subdomain (PyStr.strip PyStr.is_dot (question_name q))
  = (sub, d) →
  head (entries (d, sub) t) = Some r →
  now - timestamp r ≤ five_minutes →
  (∀ ty, is_valid_ip E (ip r) ≠ Ok (Some ty)) →
  handle_dns_query E now q cfg (Some t) = (Ok (servfail q), Some t).
Proof.
  intros Hh Hsep Hr Hage Hv.
  destruct (separate_named _ _ _ (strip_dots_no_leading_dot _) Hsep)
    as [Hs Hname].
  rewrite (handle_unmatched E _ _ _ _ Hh).
  rewrite (resolve_dns_entry_table E _ _ _ _ _ _ Hsep).
  unfold key_of. rewrite Hs, Hr.
  apply expired_false_iff in Hage. rewrite Hage.
  destruct (is_valid_ip E (ip r)) as [[ty|]|e]; [|done..].
  by specialize (Hv ty).
Qed.

Lemma unmatched_query_cached_name_witness :
  handle_dns_query (World.make [] [] true) 200 (Query 8 ["nas"; "invalid"; ""])
    home_test_config (Some [Row "nas.invalid" None "nas.invalid" 100])
  = (Ok (servfail (Query 8 ["nas"; "invalid"; ""])),
     Some [Row "nas.invalid" None "nas.invalid" 100]).
Proof.
  apply (unmatched_query_cached_name (World.make [] [] true) 200
           (Query 8 ["nas"; "invalid"; ""]) home_test_config
           [Row "nas.invalid" None "nas.invalid" 100] None "nas.invalid"
           (Row "nas.invalid" None "nas.invalid" 100));
    [reflexivity | reflexivity | reflexivity | by vm_compute | by vm_compute].
Defined.

(** X18. An unmatched query of at most two labels whose row is more than
    300 seconds old is answered with a server failure: the exception of the
    validity check is caught, the query is not forwarded, and the row
    stays, so the same holds at every later time. *)
Theorem unmatched_query_expired_two_labels (E : collaborators) (now : Z)
    (q : query) (cfg : config) (t : table) (d : string) (r : row) :
  special_domains_loop (PyStr.strip PyStr.is_dot (question_name q))
    (special_domains cfg) = None →
  separate_domain_and_subdomain (PyStr.strip PyStr.is_dot (question_name q))
  = (None, d) →
  head (entries (d, None) t) = Some r →
  five_minutes < now - timestamp r →
  ∀ later, now ≤ later →
    handle_dns_query E later q cfg (Some t) = (Ok (servfail q), Some t).
Proof.
  intros Hh Hsep Hr Hage later Hlater.
  rewrite (handle_unmatched E _ _ _ _ Hh).
  rewrite (resolve_dns_entry_table E _ _ _ _ _ _ Hsep).
  unfold key_of. simpl truthy. rewrite Hr.
  assert (He : expired later r = true) by (apply expired_true_iff; lia).
  by rewrite He.
Qed.

Lemma unmatched_query_expired_two_labels_witness :
  handle_dns_query (World.make [] [] true) 900 (Query 8 ["example"; "org"; ""])
    home_test_config (Some [Row "example.org" None "93.184.216.34" 100])
  = (Ok (servfail (Query 8 ["example"; "org"; ""])),
     Some [Row "example.org" None "93.184.216.34" 100]).
Proof.
  apply (unmatched_query_expired_two_labels (World.make [] [] true) 500
           (Query 8 ["example"; "org"; ""]) home_test_config
           [Row "example.org" None "93.184.216.34" 100] "example.org"
           (Row "example.org" None "93.184.216.34" 100));
    [reflexivity | reflexivity | reflexivity | by vm_compute | by vm_compute].
Defined.

(** X19. Whatever [handle_dns_query] returns for a query that matches no
    configured name, on any database, is a response and not an exception,
    and the response has one of three forms: a server failure, the
    response the upstream resolver gave, or one record for the query name.
    Nothing is said of a call to the upstream resolver that never
    returns. *)
Theorem unmatched_query_reply_forms (E : collaborators) (now : Z)
    (q : query) (cfg : config) (db db' : database) (r : result message) :
  special_domains_loop (PyStr.strip PyStr.is_dot (question_name q))
    (special_domains cfg) = None →
  handle_dns_query E now q cfg db = (r, db') →
  ∃ m,
    r = Ok m
    ∧ (m = servfail q
       ∨ dns_query_udp E q = Ok m
       ∨ ∃ a ty, m = answer q (PyStr.strip PyStr.is_dot (question_name q))
                       ty a).
Proof.
  intros Hh. rewrite (handle_unmatched E _ _ _ _ Hh).
  destruct (separate_domain_and_subdomain
              (PyStr.strip PyStr.is_dot (question_name q))) as [sub d] eqn:Hsep.
  destruct db as [t|].
  2: { unfold resolve_dns_entry. rewrite Hsep.
       intros [= <- <-]. exists (servfail q). split; [reflexivity | by left]. }
  destruct (separate_named _ _ _ (strip_dots_no_leading_dot _) Hsep)
    as [Hs Hname].
  rewrite (resolve_dns_entry_table E _ _ _ _ _ _ Hsep).
  assert (Hfwd : ∀ t0,
    match forwarded E now (PyStr.strip PyStr.is_dot (question_name q)) q d
            sub t0 with
    | (Ok m, db1) => (Ok m, db1)
    | (Raise _, db1) => (Ok (servfail q), db1)
    end = (r, db') →
    ∃ m, r = Ok m
      ∧ (m = servfail q ∨ dns_query_udp E q = Ok m
         ∨ ∃ a ty, m = answer q (PyStr.strip PyStr.is_dot (question_name q))
                         ty a)).
  { intros t0. unfold forwarded.
    destruct (get_ip_or_domain E _) as [a|e]; [|intros [= <- <-]; eauto].
    destruct (dns_query_udp E q) as [m|e]; intros [= <- <-]; eauto 6. }
  destruct (head (entries (key_of d sub) t)) as [r0|]; [|apply Hfwd].
  destruct (expired now r0).
  - destruct (truthy sub); [apply Hfwd | intros [= <- <-]; eauto].
  - destruct (is_valid_ip E (ip r0)) as [[ty|]|e]; intros [= <- <-];
      [|eauto..].
    rewrite Hname. eauto 8.
Qed.

Lemma unmatched_query_reply_forms_witness :
  ∃ m,
    Ok (servfail (Query 7 ["example"; "org"; ""])) = Ok m
    ∧ (m = servfail (Query 7 ["example"; "org"; ""])
       ∨ dns_query_udp World.offline (Query 7 ["example"; "org"; ""]) = Ok m
       ∨ ∃ a ty, m = answer (Query 7 ["example"; "org"; ""]) "example.org" ty a).
Proof.
  apply (unmatched_query_reply_forms World.offline 100
           (Query 7 ["example"; "org"; ""]) home_test_config None None
           (Ok (servfail (Query 7 ["example"; "org"; ""]))));
    reflexivity.
Defined.

(** ** A run of the server *)

Section Preservation.

Context (E : collaborators) (P : database → Prop).

Hypothesis P_store : ∀ now d s a, preserves P (store_ip_in_db now d s a).
Hypothesis P_get : ∀ d s, preserves P (get_ip_from_db d s).
Hypothesis P_check : ∀ now d s, preserves P (check_if_resolution_valid now d s).

Lemma preserves_ret {A} (a : A) : preserves P (ret a).
Proof. by intros db H. Qed.

Lemma preserves_raise {A} e : preserves P (@raise A e).
Proof. by intros db H. Qed.

Lemma preserves_lift {A} (r : result A) : preserves P (lift r).
Proof. by intros db H. Qed.

Lemma preserves_bind {A B} (m : M A) (k : A → M B) :
  preserves P m → (∀ a, preserves P (k a)) → preserves P (bind m k).
Proof.
  intros Hm Hk db H. unfold bind. specialize (Hm db H).
  destruct (m db) as [[a|e] db1]; simpl in *; [by apply Hk | done].
Qed.

Lemma preserves_try_except {A} (m : M A) (h : exn → M A) :
  preserves P m → (∀ e, preserves P (h e)) → preserves P (try_except m h).
Proof.
  intros Hm Hh db H. unfold try_except. specialize (Hm db H).
  destruct (m db) as [[a|e] db1]; simpl in *; [done | by apply Hh].
Qed.

Lemma preserves_start_store_thread now d s a :
  preserves P (start_store_thread now d s a).
Proof.
  apply preserves_try_except; [apply P_store|]. intros e. apply preserves_ret.
Qed.

Lemma preserves_respond_with now a q d s :
  preserves P (respond_with E now a q d s).
Proof.
  unfold respond_with. apply preserves_bind; [apply preserves_lift|].
  intros rr. apply preserves_bind; [apply preserves_start_store_thread|].
  intros _. apply preserves_ret.
Qed.

Lemma preserves_create_dns_entry now a q d s :
  preserves P (create_dns_entry E now a q d s).
Proof.
  unfold create_dns_entry. apply preserves_bind; [apply P_check|].
  intros valid.
  apply preserves_bind; [|intros ?; apply preserves_respond_with].
  destruct valid; [|apply preserves_lift].
  apply preserves_bind; [apply P_get|]. intros old_ip.
  destruct (decide (str old_ip ≠ a)); [apply preserves_lift|].
  destruct old_ip; [apply preserves_ret | apply preserves_raise].
Qed.

Lemma preserves_resolve_mdns now host q d s :
  preserves P (resolve_mdns E now host q d s).
Proof.
  unfold resolve_mdns.
  apply preserves_try_except; [|intros e; apply preserves_ret].
  apply preserves_bind; [apply preserves_lift|]. intros [returncode stdout].
  destruct (returncode =? 0); [|apply preserves_ret].
  apply preserves_bind; [apply preserves_lift|]. intros a.
  apply preserves_bind; [apply preserves_lift|].
  intros [ty|]; [|apply preserves_ret].
  apply preserves_bind; [apply preserves_create_dns_entry|].
  intros m. apply preserves_ret.
Qed.

Lemma preserves_resolve_dns_entry now qname q :
  preserves P (resolve_dns_entry E now qname q).
Proof.
  unfold resolve_dns_entry.
  destruct (separate_domain_and_subdomain qname) as [s d].
  apply preserves_bind; [apply P_check|]. intros [|].
  - apply preserves_bind; [apply P_get|].
    intros [a|]; [|apply preserves_raise].
    apply preserves_bind; [apply preserves_create_dns_entry|]. intros m.
    apply preserves_bind; [apply preserves_start_store_thread|].
    intros _. apply preserves_ret.
  - apply preserves_bind; [apply preserves_lift|]. intros a.
    apply preserves_bind; [apply preserves_lift|]. intros m.
    apply preserves_bind; [apply preserves_start_store_thread|].
    intros _. apply preserves_ret.
Qed.

Lemma preserves_to_wire response : preserves P (to_wire response).
Proof. destruct response; [apply preserves_ret | apply preserves_raise]. Qed.

Lemma preserves_handle_dns_query now q cfg :
  preserves P (handle_dns_query E now q cfg).
Proof.
  unfold handle_dns_query.
  destruct (special_domains_loop _ _) as [[d target|d sub target]|].
  - destruct (PyStr.endswith target ".local");
      (apply preserves_bind; [|intros ?; apply preserves_to_wire]);
      [apply preserves_resolve_mdns | apply preserves_create_dns_entry].
  - destruct (PyStr.endswith target ".local");
      (apply preserves_bind; [|intros ?; apply preserves_to_wire]);
      [apply preserves_resolve_mdns | apply preserves_create_dns_entry].
  - apply preserves_bind; [|intros ?; apply preserves_to_wire].
    apply preserves_try_except; [apply preserves_resolve_dns_entry|].
    intros e. apply preserves_ret.
Qed.

Lemma preserves_serve cfg arrivals : preserves P (serve E cfg arrivals).
Proof.
  induction arrivals as [|[now q] rest IH]; cbn [serve]; [apply preserves_ret|].
  apply preserves_bind; [apply preserves_handle_dns_query|]. intros m.
  apply preserves_bind; [exact IH|]. intros sent. apply preserves_ret.
Qed.

End Preservation.

Section SoundTable.

Lemma sound_table_store now d s a :
  preserves sound_table (store_ip_in_db now d s a).
Proof.
  intros db (t & -> & Hu). rewrite store_ip_in_db_table. eexists.
  split; [done|]. by apply (append_preserves_unique (key_of d s)).
Qed.

Lemma sound_table_get d s : preserves sound_table (get_ip_from_db d s).
Proof.
  intros db (t & -> & Hu). rewrite get_ip_from_db_table. by exists t.
Qed.

Lemma sound_table_check now d s :
  preserves sound_table (check_if_resolution_valid now d s).
Proof.
  intros db (t & -> & Hu). rewrite check_if_resolution_valid_table.
  destruct (head (entries (key_of d s) t)) as [r|]; [|by exists t].
  destruct (expired now r); [|by exists t].
  destruct (truthy s); [|by exists t].
  eexists. split; [done|]. by apply others_preserves_unique.
Qed.

Lemma sound_table_handle E now q cfg :
  preserves sound_table (handle_dns_query E now q cfg).
Proof.
  apply preserves_handle_dns_query;
    [apply sound_table_store | apply sound_table_get | apply sound_table_check].
Qed.

End SoundTable.

(** X20. From [start_dns_server] on, whatever the database file held
    before, whatever the configuration and whatever queries arrive, the
    table exists and holds at most one row per key, also when the loop has
    ended in an exception. *)
Theorem start_dns_server_sound_table (E : collaborators) (cfg : config)
    (arrivals : list (Z * query)) (f : db_file) :
  ∃ t, (start_dns_server E cfg arrivals f).2 = Some t ∧ unique_keys t.
Proof.
  unfold start_dns_server. rewrite create_db_recreates.
  apply (preserves_serve E sound_table sound_table_store sound_table_get
           sound_table_check cfg arrivals (Some [])).
  exists []. split; [done|]. intros k. simpl. lia.
Qed.

(** ** The resolver and the cache in [create_dns_entry] *)


(** X23. When the key has a row at most 300 seconds old whose address
    equals the given target, [create_dns_entry] serves the cached address
    without asking the public resolver: the outcome is the same under any
    resolver. *)
Theorem create_dns_entry_reuses_cache (E E' : collaborators) (now : Z)
    (a : string) (q : query) (d : string) (s : option string) (t : table)
    (r : row) :
  inet_pton E' = inet_pton E →
  head (entries (key_of d s) t) = Some r →
  now - timestamp r ≤ five_minutes →
  ip r = a →
  create_dns_entry E' now a q d s (Some t)
  = create_dns_entry E now a q d s (Some t).
Proof.
  intros Hp Hr Hage Ha. apply expired_false_iff in Hage.
  rewrite (create_dns_entry_cached_same E' now a q d s t r Hr Hage Ha).
  rewrite (create_dns_entry_cached_same E now a q d s t r Hr Hage Ha).
  by apply respond_with_ignores_resolver.
Qed.

Lemma create_dns_entry_reuses_cache_witness :
  create_dns_entry (World.make [("nas.example", "10.0.0.5")] [] true) 200
    "nas.example" (Query 7 ["home"; "test"; ""]) "home.test" None
    (Some [Row "home.test" None "nas.example" 100])
  = create_dns_entry World.offline 200 "nas.example" (Query 7 ["home"; "test"; ""])
      "home.test" None (Some [Row "home.test" None "nas.example" 100]).
Proof.
  apply (create_dns_entry_reuses_cache World.offline
           (World.make [("nas.example", "10.0.0.5")] [] true) 200
           "nas.example" (Query 7 ["home"; "test"; ""]) "home.test" None
           [Row "home.test" None "nas.example" 100]
           (Row "home.test" None "nas.example" 100));
    [reflexivity | reflexivity | by vm_compute | reflexivity].
Defined.

(** X24. A cached address that differs from the given target is not used:
    when the key has a row at most 300 seconds old with another address,
    the result of [create_dns_entry] is the one it has with no row cached
    for the key. *)
Theorem create_dns_entry_ignores_other_address (E : collaborators) (now : Z)
    (a : string) (q : query) (d : string) (s : option string) (t : table)
    (r : row) :
  head (entries (key_of d s) t) = Some r →
  now - timestamp r ≤ five_minutes →
  ip r ≠ a →
  (create_dns_entry E now a q d s (Some t)).1
  = (create_dns_entry E now a q d s (Some (others (key_of d s) t))).1.
Proof.
  intros Hr Hage Ha. apply expired_false_iff in Hage.
  rewrite (create_dns_entry_cached_differs E now a q d s t r Hr Hage Ha).
  assert (Hmiss : head (entries (key_of d s) (others (key_of d s) t)) = None)
    by (by rewrite entries_others_same).
  change (Some (others (key_of d s) t))
    with (Some (others (key_of d s) t : table)).
  rewrite (create_dns_entry_miss E now a q d s _ Hmiss).
  rewrite !resolve_and_respond_cases.
  destruct (get_ip_or_domain E a) as [a1|e]; [|done].
  rewrite !respond_with_cases. by destruct (is_valid_ip E a1) as [[ty|]|e].
Qed.

Lemma create_dns_entry_ignores_other_address_witness :
  (create_dns_entry World.offline 200 "192.168.1.99" (Query 7 ["home"; "test"; ""])
     "home.test" None (Some [Row "home.test" None "192.168.1.10" 100])).1
  = (create_dns_entry World.offline 200 "192.168.1.99" (Query 7 ["home"; "test"; ""])
       "home.test" None
       (Some (others (key_of "home.test" None)
                [Row "home.test" None "192.168.1.10" 100]))).1.
Proof.
  apply (create_dns_entry_ignores_other_address World.offline 200
           "192.168.1.99" (Query 7 ["home"; "test"; ""]) "home.test" None
           [Row "home.test" None "192.168.1.10" 100]
           (Row "home.test" None "192.168.1.10" 100));
    [reflexivity | by vm_compute | discriminate].
Defined.
